(** * notbadai_ide: the session bridge of [ExtensionAPI] (src/notbadai_ide/api.py)

    A shallow embedding of the class [ExtensionAPI]: the thread-local
    session context filled by [load], the sixteen accessors, the nine
    outbound actions and [cleanup], followed by the properties of the
    specification that concern them.

    Python values are dynamically typed, so one type [pyval] holds what the
    JSON decoder produces and the value objects built from it.  Statements
    that can raise are written in an exception monad; the methods of the
    class, which read and write the thread-local store and talk to the
    host, in a state-and-exception monad over [world]. *)

From Stdlib Require Import ZArith Ascii String List Bool.
From stdpp Require Import base option list strings gmap fin_maps.

Local Open Scope Z_scope.
Set Warnings "-register-all".

(** ** Python values *)

(** What [response.json()] yields (None, booleans, integers, strings, lists,
    dicts with string keys, in insertion order) and, as [PObj], an instance
    of one of the classes of [models/]: those classes are not part of this
    file's source, the specification treats them as plain value objects, and
    an instance is recorded as the call that built it: class name,
    positional arguments, keyword arguments.  JSON numbers with a fraction
    or an exponent are outside the model. *)
Inductive pyval : Type :=
| PNone
| PBool (b : bool)
| PInt (n : Z)
| PStr (s : string)
| PList (l : list pyval)
| PDict (d : list (string * pyval))
| PObj (cls : string) (args : list pyval) (kwargs : list (string * pyval)).

Definition dict : Type := list (string * pyval).

(** The exceptions that the modelled code can raise.  [HTTPError] and
    [ConnectionError] are the two that [requests] raises for a transfer that
    did not work; they are what the specification calls a TransportError. *)
Inductive exn : Type :=
| KeyError (key : string)
| TypeError
| ValueError
| AttributeError (name : string)
| AssertionError
| HTTPError (status : Z)
| ConnectionError
| JSONDecodeError.

Definition is_TransportError (e : exn) : bool :=
  match e with
  | HTTPError _ | ConnectionError => true
  | _ => false
  end.

(** ** Exceptions without state *)

Inductive result (A : Type) : Type :=
| Ok (a : A)
| Raise (e : exn).
Arguments Ok {A} a.
Arguments Raise {A} e.

Definition result_bind {A B} (f : A -> result B) (r : result A) : result B :=
  match r with
  | Ok a => f a
  | Raise e => Raise e
  end.

#[global] Instance result_ret : MRet result := @Ok.
#[global] Instance result_mbind : MBind result := @result_bind.
#[global] Instance result_throw : MThrow exn result := @Raise.

(** [[f(x) for x in l]]: the first exception ends the comprehension. *)
Fixpoint result_map {A B} (f : A -> result B) (l : list A) : result (list B) :=
  match l with
  | [] => Ok []
  | x :: l' =>
      match f x with
      | Ok y =>
          match result_map f l' with
          | Ok ys => Ok (y :: ys)
          | Raise e => Raise e
          end
      | Raise e => Raise e
      end
  end.

(** ** Operations of the language on values *)

(** Lookup in a dict kept as an association list. *)
Fixpoint assoc {A} (k : string) (d : list (string * A)) : option A :=
  match d with
  | [] => None
  | (k', v) :: d' => if String.eqb k k' then Some v else assoc k d'
  end.

(** [d[k] = v]: an existing key keeps its place, a new one goes last. *)
Fixpoint dict_set {A} (k : string) (v : A) (d : list (string * A))
  : list (string * A) :=
  match d with
  | [] => [(k, v)]
  | (k', v') :: d' =>
      if String.eqb k k' then (k, v) :: d' else (k', v') :: dict_set k v d'
  end.

(** [a == b] on decoded values: [True == 1] and [False == 0] as [bool] is a
    subclass of [int]; lists compare element by element; dicts compare as
    mappings, whatever the order of their keys.  Value objects are never
    compared by this module (every compared value comes from the payload);
    the model gives [false] for them. *)
Fixpoint py_eq (a b : pyval) {struct a} : bool :=
  match a, b with
  | PNone, PNone => true
  | PBool x, PBool y => Bool.eqb x y
  | PBool x, PInt n => Z.eqb (Z.b2z x) n
  | PInt n, PBool x => Z.eqb n (Z.b2z x)
  | PInt m, PInt n => Z.eqb m n
  | PStr s, PStr t => String.eqb s t
  | PList l, PList l' =>
      (fix go (l l' : list pyval) {struct l} : bool :=
         match l, l' with
         | [], [] => true
         | x :: l, y :: l' => py_eq x y && go l l'
         | _, _ => false
         end) l l'
  | PDict d, PDict d' =>
      Nat.eqb (length d) (length d')
      && forallb (fun kv => match assoc (fst kv) d' with
                            | Some v' => py_eq (snd kv) v'
                            | None => false
                            end) d
  | _, _ => false
  end.

(** [hash(v)] raises TypeError on lists and dicts. *)
Definition hashable (v : pyval) : bool :=
  match v with
  | PList _ | PDict _ => false
  | _ => true
  end.

Fixpoint chars (s : string) : list pyval :=
  match s with
  | EmptyString => []
  | String c s' => PStr (String c EmptyString) :: chars s'
  end.

(** [iter(v)]: the elements of a list, the keys of a dict, the characters
    of a string; anything else is not iterable. *)
Definition py_iter (v : pyval) : result (list pyval) :=
  match v with
  | PList l => Ok l
  | PDict d => Ok (map (fun kv => PStr (fst kv)) d)
  | PStr s => Ok (chars s)
  | _ => Raise TypeError
  end.

(** [v[k]] for a string [k]. *)
Definition py_getitem (v : pyval) (k : string) : result pyval :=
  match v with
  | PDict d =>
      match assoc k d with
      | Some x => Ok x
      | None => Raise (KeyError k)
      end
  | _ => Raise TypeError
  end.

(** [v.get(k, default)]: only dicts have the method. *)
Definition py_get (v : pyval) (k : string) (dflt : pyval) : result pyval :=
  match v with
  | PDict d => Ok (default dflt (assoc k d))
  | _ => Raise (AttributeError "get")
  end.

(** [v.items()]. *)
Definition py_items (v : pyval) : result dict :=
  match v with
  | PDict d => Ok d
  | _ => Raise (AttributeError "items")
  end.

(** [**v] in a call: [v] has to be a mapping. *)
Definition py_kwargs (v : pyval) : result dict :=
  match v with
  | PDict d => Ok d
  | _ => Raise TypeError
  end.

(** [set(v)], kept as the list of its elements: membership is all this
    module asks of it. *)
Definition py_set (v : pyval) : result (list pyval) :=
  match py_iter v with
  | Ok l => if forallb hashable l then Ok l else Raise TypeError
  | Raise e => Raise e
  end.

(** [x in s] for a set [s]: [x] is hashed first. *)
Definition py_in_set (x : pyval) (s : list pyval) : result bool :=
  if hashable x then Ok (existsb (py_eq x) s) else Raise TypeError.

(** [k in v] for a string [k]: a key of a dict, an element of a list, a
    substring of a string. *)
Definition py_contains (v : pyval) (k : string) : result bool :=
  match v with
  | PDict d => Ok (bool_decide (is_Some (assoc k d)))
  | PList l => Ok (existsb (py_eq (PStr k)) l)
  | PStr s => Ok (bool_decide (is_Some (String.index 0 k s)))
  | _ => Raise TypeError
  end.

(** [int(s)] for the text of an environment variable: surrounding white
    space, an optional sign, decimal digits with single underscores between
    them.  (ASCII only.) *)
Definition is_space (c : ascii) : bool :=
  let n := Z.of_nat (nat_of_ascii c) in
  ((9 <=? n) && (n <=? 13)) || ((28 <=? n) && (n <=? 32)).

Definition digit_of (c : ascii) : option Z :=
  let n := Z.of_nat (nat_of_ascii c) in
  if (48 <=? n) && (n <=? 57) then Some (n - 48) else None.

Fixpoint lstrip (l : list ascii) : list ascii :=
  match l with
  | c :: l' => if is_space c then lstrip l' else l
  | [] => []
  end.

Fixpoint int_digits (acc : Z) (after_digit : bool) (l : list ascii) : option Z :=
  match l with
  | [] => if after_digit then Some acc else None
  | c :: l' =>
      if Ascii.eqb c "_"%char then
        if after_digit then int_digits acc false l' else None
      else
        match digit_of c with
        | Some d => int_digits (10 * acc + d) true l'
        | None => None
        end
  end.

Definition py_int (s : string) : result Z :=
  let body := lstrip (rev (lstrip (rev (list_ascii_of_string s)))) in
  let parsed :=
    match body with
    | c :: l' =>
        if Ascii.eqb c "-"%char then Z.opp <$> int_digits 0 false l'
        else if Ascii.eqb c "+"%char then int_digits 0 false l'
        else int_digits 0 false body
    | [] => None
    end in
  match parsed with
  | Some n => Ok n
  | None => Raise ValueError
  end.

(** ** Value objects *)

(** Modelled from the spec: the classes [File], [Message], [Terminal],
    [Cursor], [APIKey] and [CodeApplyChange] are declared in [models/], which
    is not among the sources; the specification (section 1) treats them as
    plain value objects, so a constructor call yields the record of its
    arguments and none of them raises. *)
Definition File (path repo_path content : pyval) (is_open : bool) : pyval :=
  PObj "File" [path; repo_path; content; PBool is_open] [].

(** [File(p, repo_path)]: the two remaining arguments are left to the class. *)
Definition File2 (path repo_path : pyval) : pyval :=
  PObj "File" [path; repo_path] [].

Definition Terminal (name : pyval) (is_current : bool) : pyval :=
  PObj "Terminal" [name; PBool is_current] [].

Definition Message (kw : dict) : pyval := PObj "Message" [] kw.
Definition Cursor (kw : dict) : pyval := PObj "Cursor" [] kw.
Definition APIKey (kw : dict) : pyval := PObj "APIKey" [] kw.

Definition CodeApplyChange (target_file_path repo_path patch_text : pyval)
  : pyval :=
  PObj "CodeApplyChange" []
    [("target_file_path", target_file_path); ("repo_path", repo_path);
     ("patch_text", patch_text)].

(** ** The world of one worker thread *)

Inductive verb : Type := GET | POST.

(** A URL is kept as the parts that the f-string puts together:
    [http://{host}:{port}{path}{id}]. *)
Record url : Type := {
  url_host : string;
  url_port : Z;
  url_path : string;
  url_id : pyval }.

Record request : Type := {
  req_verb : verb;
  req_url : url;
  req_json : option pyval }.

(** What comes back for one request: nothing (the connection failed), or a
    status code and a body, [None] when the body is not JSON. *)
Inductive reply : Type :=
| NoReply
| Reply (status : Z) (body : option pyval).

(** [environ] is [os.environ]; [config] the shared object of [config.py]
    (its host and port once [configure] was called); [tls] the [__dict__]
    of [self._local] for the calling thread; [inbox] the replies the host
    will give, one per request, in order; [outbox] the requests issued so
    far. *)
Record world : Type := {
  environ : gmap string string;
  config : option (string * Z);
  tls : gmap string pyval;
  inbox : list reply;
  outbox : list request }.

Definition with_tls (f : gmap string pyval -> gmap string pyval) (w : world)
  : world :=
  {| environ := environ w; config := config w; tls := f (tls w);
     inbox := inbox w; outbox := outbox w |}.

Definition with_config (c : option (string * Z)) (w : world) : world :=
  {| environ := environ w; config := c; tls := tls w;
     inbox := inbox w; outbox := outbox w |}.

Definition with_wire (i : list reply) (o : list request) (w : world) : world :=
  {| environ := environ w; config := config w; tls := tls w;
     inbox := i; outbox := o |}.

(** ** Statements: state and exceptions *)

Definition M (A : Type) : Type := world -> result A * world.

Definition M_ret {A} (a : A) : M A := fun w => (Ok a, w).

Definition M_bind {A B} (f : A -> M B) (m : M A) : M B :=
  fun w =>
    match m w with
    | (Ok a, w') => f a w'
    | (Raise e, w') => (Raise e, w')
    end.

Definition M_raise {A} (e : exn) : M A := fun w => (Raise e, w).

#[global] Instance M_mret : MRet M := @M_ret.
#[global] Instance M_mbind : MBind M := @M_bind.
#[global] Instance M_throw : MThrow exn M := @M_raise.

(** An expression without effect on the world. *)
Definition lift {A} (r : result A) : M A := fun w => (r, w).

(** A loop that collects one value per element. *)
Fixpoint M_map {A B} (f : A -> M B) (l : list A) : M (list B) :=
  match l with
  | [] => mret []
  | x :: l' => y ← f x; ys ← M_map f l'; mret (y :: ys)
  end.

(** [os.environ[k]] *)
Definition environ_get (k : string) : M string :=
  fun w =>
    match environ w !! k with
    | Some v => (Ok v, w)
    | None => (Raise (KeyError k), w)
    end.

(** [self._local.name = v] *)
Definition setattr (name : string) (v : pyval) : M unit :=
  fun w => (Ok tt, with_tls (insert name v) w).

(** [self._local.name] *)
Definition getattr (name : string) : M pyval :=
  fun w =>
    match tls w !! name with
    | Some v => (Ok v, w)
    | None => (Raise (AttributeError name), w)
    end.

(** Modelled from the spec: [config.py] is not among the sources;
    [load] "configures the shared host/port target", which the two HTTP
    helpers read back as [config.host] and [config.port]. *)
Definition configure (host : string) (port : Z) : M unit :=
  fun w => (Ok tt, with_config (Some (host, port)) w).

Definition config_host : M string :=
  fun w =>
    match config w with
    | Some (h, _) => (Ok h, w)
    | None => (Raise (AttributeError "host"), w)
    end.

Definition config_port : M Z :=
  fun w =>
    match config w with
    | Some (_, p) => (Ok p, w)
    | None => (Raise (AttributeError "port"), w)
    end.

(** [requests.get] and [requests.post]: the request goes out, the next
    reply of the host comes back as the response; without one,
    [requests] raises ConnectionError. *)
Definition http (r : request) : M (Z * option pyval) :=
  fun w =>
    let w' := with_wire (tail (inbox w)) (outbox w ++ [r]) w in
    match inbox w with
    | Reply status body :: _ => (Ok (status, body), w')
    | _ => (Raise ConnectionError, w')
    end.

(** [response.raise_for_status()]: [requests] raises HTTPError for the
    client and server error codes, 400 to 599. *)
Definition is_error_status (status : Z) : bool :=
  (400 <=? status) && (status <? 600).

Definition raise_for_status (status : Z) : result unit :=
  if is_error_status status then Raise (HTTPError status) else Ok tt.

(** [response.json()] *)
Definition response_json (body : option pyval) : result pyval :=
  match body with
  | Some j => Ok j
  | None => Raise JSONDecodeError
  end.

(** ** The class ExtensionAPI *)

Definition _load_data : M pyval :=
  host ← config_host;
  port ← config_port;
  uuid ← getattr "uuid";
  '(status, body) ← http {| req_verb := GET;
                            req_url := {| url_host := host; url_port := port;
                                          url_path := "/api/extension/data/";
                                          url_id := uuid |};
                            req_json := None |};
  lift (raise_for_status status);;
  result ← lift (response_json body);
  lift (py_getitem result "data").

(** [context_files[entry] = [File(p, repo_path) for p in values]] for each
    item of the payload's mapping. *)
Fixpoint load_context_files (repo_path : pyval) (items : dict) (acc : dict)
  : result dict :=
  match items with
  | [] => Ok acc
  | (entry, values) :: rest =>
      match py_iter values with
      | Ok ps =>
          load_context_files repo_path rest
            (dict_set entry (PList (map (fun p => File2 p repo_path) ps)) acc)
      | Raise e => Raise e
      end
  end.

(** Lines 29 to 60 of [load]: the context is filled attribute by attribute
    from the decoded payload.  [repo_path] stands for the reads of
    [self._local.repo_path], the attribute that was just assigned. *)
Definition load_context (kwargs : pyval) : M unit :=
  request_id ← lift (py_getitem kwargs "request_id");
  setattr "request_id" request_id;;
  repo_path ← lift (py_getitem kwargs "repo_path");
  setattr "repo_path" repo_path;;
  selection ← lift (py_get kwargs "selection" PNone);
  setattr "selection" selection;;
  clip_board ← lift (py_get kwargs "clip_board" PNone);
  setattr "clip_board" clip_board;;
  prompt ← lift (py_get kwargs "prompt" PNone);
  setattr "prompt" prompt;;
  history ← lift (py_get kwargs "chat_history" (PList []));
  entries ← lift (py_iter history);
  messages ← lift (result_map (fun m => kw ← py_kwargs m; mret (Message kw))
                     entries);
  setattr "chat_history" (PList messages);;
  current_terminal ← lift (py_get kwargs "current_terminal" PNone);
  setattr "current_terminal" current_terminal;;
  terminals ← lift (py_get kwargs "terminals" (PList []));
  setattr "terminals" terminals;;
  api_keys ← lift (py_get kwargs "api_keys" (PDict []));
  setattr "api_keys" api_keys;;
  settings ← lift (py_get kwargs "settings" (PDict []));
  setattr "settings" settings;;
  ui_action ← lift (py_get kwargs "ui_action" PNone);
  setattr "ui_action" ui_action;;
  code_apply_change ← lift (py_get kwargs "code_apply_change" PNone);
  setattr "code_apply_change" code_apply_change;;
  opened ← lift (py_get kwargs "opened_files" PNone);
  opened_files ← lift (py_set opened);
  repo ← lift (py_getitem kwargs "repo");
  paths ← lift (py_iter repo);
  repo_files ← lift (result_map
                       (fun p => is_open ← py_in_set p opened_files;
                                 mret (File p repo_path PNone is_open))
                       paths);
  setattr "repo_files" (PList repo_files);;
  current_file ← lift (py_getitem kwargs "current_file");
  match current_file with
  | PNone => setattr "current_file" PNone
  | _ =>
      current_file_content ← lift (py_get kwargs "current_file_content" PNone);
      current_file' ← lift (py_getitem kwargs "current_file");
      setattr "current_file"
        (File current_file' repo_path current_file_content true)
  end;;
  groups ← lift (py_get kwargs "context_files" (PDict []));
  items ← lift (py_items groups);
  context_files ← lift (load_context_files repo_path items []);
  setattr "context_files" (PDict context_files);;
  cursor ← lift (py_getitem kwargs "cursor");
  match cursor with
  | PNone => setattr "cursor" PNone
  | _ =>
      cursor' ← lift (py_getitem kwargs "cursor");
      kw ← lift (py_kwargs cursor');
      setattr "cursor" (Cursor kw)
  end.

Definition load : M unit :=
  uuid ← environ_get "EXTENSION_UUID";
  setattr "uuid" (PStr uuid);;
  host ← environ_get "HOST";
  port_text ← environ_get "PORT";
  port ← lift (py_int port_text);
  configure host port;;
  kwargs ← _load_data;
  load_context kwargs.

(** [hasattr(self._local, '__dict__')] holds for every [threading.local]. *)
Definition cleanup : M unit :=
  fun w => (Ok tt, with_tls (fun _ => ∅) w).

Definition _dump (method : string) (kwargs : dict) : M unit :=
  lift (if bool_decide (is_Some (assoc "method" kwargs))
        then Raise AssertionError else Ok tt);;
  let kwargs := dict_set "method" (PStr method) kwargs in
  request_id ← getattr "request_id";
  let kwargs := dict_set "request_id" request_id kwargs in
  host ← config_host;
  port ← config_port;
  uuid ← getattr "uuid";
  http {| req_verb := POST;
          req_url := {| url_host := host; url_port := port;
                        url_path := "/api/extension/response/";
                        url_id := uuid |};
          req_json := Some (PDict kwargs) |};;
  mret tt.

(** *** Accessors *)

Definition get_repo_files : M pyval := getattr "repo_files".
Definition get_repo_path : M pyval := getattr "repo_path".
Definition get_current_file : M pyval := getattr "current_file".
Definition get_selection : M pyval := getattr "selection".
Definition get_clip_board : M pyval := getattr "clip_board".
Definition get_cursor : M pyval := getattr "cursor".
Definition get_chat_history : M pyval := getattr "chat_history".

Definition get_current_terminal : M pyval :=
  current_terminal ← getattr "current_terminal";
  mret (Terminal current_terminal true).

Definition get_terminals : M pyval :=
  terminals ← getattr "terminals";
  entries ← lift (py_iter terminals);
  res ← M_map (fun terminal =>
                 current_terminal ← getattr "current_terminal";
                 let is_current_terminal := py_eq terminal current_terminal in
                 mret (Terminal terminal is_current_terminal))
              entries;
  mret (PList res).

Definition get_code_apply_change : M pyval :=
  data ← getattr "code_apply_change";
  target_file_path ← lift (py_getitem data "target_file_path");
  repo_path ← getattr "repo_path";
  patch_text ← lift (py_getitem data "patch_text");
  mret (CodeApplyChange target_file_path repo_path patch_text).

Definition get_context_files : M pyval := getattr "context_files".
Definition get_prompt : M pyval := getattr "prompt".

Definition get_api_key (provider : string) : M pyval :=
  api_keys ← getattr "api_keys";
  found ← lift (py_contains api_keys provider);
  if (found : bool) then
    api_keys' ← getattr "api_keys";
    record ← lift (py_getitem api_keys' provider);
    kw ← lift (py_kwargs record);
    mret (APIKey kw)
  else mret PNone.

Definition get_api_keys : M pyval :=
  api_keys ← getattr "api_keys";
  items ← lift (py_items api_keys);
  res ← lift (result_map (fun kv => kw ← py_kwargs (snd kv); mret (APIKey kw))
                items);
  mret (PList res).

Definition get_setting (setting : string) : M pyval :=
  settings ← getattr "settings";
  lift (py_get settings setting PNone).

Definition get_ui_action : M pyval := getattr "ui_action".

(** *** Outbound actions *)

Definition chat (content : pyval) : M unit :=
  _dump "chat" [("content", content)].

Definition end_chat : M unit := _dump "end_chat" [].

Definition start_chat : M unit := _dump "start_chat" [].

Definition autocomplete (suggestions : pyval) : M unit :=
  _dump "autocomplete" [("suggestions", suggestions)].

Definition update_file (patch matches : pyval) : M unit :=
  _dump "update_file" [("patch", patch); ("matches", matches)].

Definition highlight (results : pyval) : M unit :=
  _dump "highlight" [("results", results)].

(** [cursor_row] and [cursor_column] default to None. *)
Definition inline_completion (text : pyval) (cursor_row cursor_column : option pyval)
  : M unit :=
  _dump "inline_completion"
    [("content", text); ("cursor_row", default PNone cursor_row);
     ("cursor_column", default PNone cursor_column)].

Definition log (message : pyval) : M unit :=
  _dump "log" [("content", message)].

Definition ui_form (title form_content : pyval) : M unit :=
  _dump "ui_form" [("title", title); ("form_content", form_content)].

(** The nine actions with their arguments, to speak of all of them at once. *)
Inductive action : Type :=
| Chat (content : pyval)
| EndChat
| StartChat
| Autocomplete (suggestions : pyval)
| UpdateFile (patch matches : pyval)
| Highlight (results : pyval)
| InlineCompletion (text : pyval) (cursor_row cursor_column : option pyval)
| Log (message : pyval)
| UiForm (title form_content : pyval).

Definition call (a : action) : M unit :=
  match a with
  | Chat content => chat content
  | EndChat => end_chat
  | StartChat => start_chat
  | Autocomplete suggestions => autocomplete suggestions
  | UpdateFile patch matches => update_file patch matches
  | Highlight results => highlight results
  | InlineCompletion text row column => inline_completion text row column
  | Log message => log message
  | UiForm title form_content => ui_form title form_content
  end.

(** The name of the method, as the caller writes it. *)
Definition action_name (a : action) : string :=
  match a with
  | Chat _ => "chat"
  | EndChat => "end_chat"
  | StartChat => "start_chat"
  | Autocomplete _ => "autocomplete"
  | UpdateFile _ _ => "update_file"
  | Highlight _ => "highlight"
  | InlineCompletion _ _ _ => "inline_completion"
  | Log _ => "log"
  | UiForm _ _ => "ui_form"
  end.

(** The arguments of the call, under the names of the method's parameters
    ([inline_completion] sends its [text] as [content], like [log] its
    [message]: the names are those of the keyword arguments to [_dump]). *)
Definition action_args (a : action) : dict :=
  match a with
  | Chat content => [("content", content)]
  | EndChat | StartChat => []
  | Autocomplete suggestions => [("suggestions", suggestions)]
  | UpdateFile patch matches => [("patch", patch); ("matches", matches)]
  | Highlight results => [("results", results)]
  | InlineCompletion text row column =>
      [("content", text); ("cursor_row", default PNone row);
       ("cursor_column", default PNone column)]
  | Log message => [("content", message)]
  | UiForm title form_content =>
      [("title", title); ("form_content", form_content)]
  end.

(** ** A sample session, used to run the model *)

Definition sample_environ : gmap string string :=
  {[ "EXTENSION_UUID" := "u-1"; "HOST" := "localhost"; "PORT" := "8080" ]}.

Definition start (replies : list reply) : world :=
  {| environ := sample_environ; config := None; tls := ∅;
     inbox := replies; outbox := [] |}.

Definition ok_reply (payload : dict) : reply :=
  Reply 200 (Some (PDict [("data", PDict payload)])).

(** The payload of the specification's concrete scenario. *)
Definition payload_min : dict :=
  [("request_id", PStr "r1"); ("repo_path", PStr "/proj");
   ("repo", PList [PStr "x.py"]); ("opened_files", PList []);
   ("current_file", PNone); ("context_files", PDict []); ("cursor", PNone)].

Definition run {A} (m : M A) (w : world) : result A := fst (m w).
Definition exec {A} (m : M A) (w : world) : world := snd (m w).

(** ** Vocabulary of the statements *)

(** The payload carried by the reply that the next request will get: the
    [data] member of its JSON body. *)
Definition next_payload (w : world) : option pyval :=
  match inbox w with
  | Reply _ (Some body) :: _ =>
      match py_getitem body "data" with
      | Ok payload => Some payload
      | Raise _ => None
      end
  | _ => None
  end.

(** The keys that [load] reads with [kwargs[...]]. *)
Definition required_fields : list string :=
  ["request_id"; "repo_path"; "repo"; "current_file"; "cursor"].

(** A Terminal object flagged current. *)
Definition is_current (v : pyval) : bool :=
  match v with
  | PObj cls [_; PBool flag] [] => String.eqb cls "Terminal" && flag
  | _ => false
  end.

Definition count_current (l : list pyval) : nat :=
  length (List.filter is_current l).

(** How many identifiers of [ts] compare equal to [cur]. *)
Definition count_matches (cur : pyval) (ts : list pyval) : nat :=
  length (List.filter (fun t => py_eq t cur) ts).

(** What a successful [load_context] leaves in the thread-local store [t],
    attribute by attribute, in terms of the payload. *)
Record loaded (payload : dict) (t : gmap string pyval) : Prop := {
  ld_request_id :
    exists v, assoc "request_id" payload = Some v /\ t !! "request_id" = Some v;
  ld_repo_path :
    exists v, assoc "repo_path" payload = Some v /\ t !! "repo_path" = Some v;
  ld_selection :
    t !! "selection" = Some (default PNone (assoc "selection" payload));
  ld_clip_board :
    t !! "clip_board" = Some (default PNone (assoc "clip_board" payload));
  ld_prompt :
    t !! "prompt" = Some (default PNone (assoc "prompt" payload));
  ld_chat_history :
    exists entries messages,
      py_iter (default (PList []) (assoc "chat_history" payload)) = Ok entries
      /\ result_map (fun m => kw ← py_kwargs m; mret (Message kw)) entries
         = Ok messages
      /\ t !! "chat_history" = Some (PList messages);
  ld_current_terminal :
    t !! "current_terminal"
    = Some (default PNone (assoc "current_terminal" payload));
  ld_terminals :
    t !! "terminals" = Some (default (PList []) (assoc "terminals" payload));
  ld_api_keys :
    t !! "api_keys" = Some (default (PDict []) (assoc "api_keys" payload));
  ld_settings :
    t !! "settings" = Some (default (PDict []) (assoc "settings" payload));
  ld_ui_action :
    t !! "ui_action" = Some (default PNone (assoc "ui_action" payload));
  ld_code_apply_change :
    t !! "code_apply_change"
    = Some (default PNone (assoc "code_apply_change" payload));
  ld_repo_files :
    exists repo_path opened_files repo paths files,
      assoc "repo_path" payload = Some repo_path
      /\ py_set (default PNone (assoc "opened_files" payload)) = Ok opened_files
      /\ assoc "repo" payload = Some repo
      /\ py_iter repo = Ok paths
      /\ result_map (fun p => is_open ← py_in_set p opened_files;
                              mret (File p repo_path PNone is_open)) paths
         = Ok files
      /\ t !! "repo_files" = Some (PList files);
  ld_current_file :
    exists repo_path current_file,
      assoc "repo_path" payload = Some repo_path
      /\ assoc "current_file" payload = Some current_file
      /\ t !! "current_file"
         = Some (match current_file with
                 | PNone => PNone
                 | _ => File current_file repo_path
                          (default PNone (assoc "current_file_content" payload))
                          true
                 end);
  ld_context_files :
    exists repo_path items context_files,
      assoc "repo_path" payload = Some repo_path
      /\ py_items (default (PDict []) (assoc "context_files" payload)) = Ok items
      /\ load_context_files repo_path items [] = Ok context_files
      /\ t !! "context_files" = Some (PDict context_files);
  ld_cursor :
    exists cursor,
      assoc "cursor" payload = Some cursor
      /\ (cursor = PNone /\ t !! "cursor" = Some PNone
          \/ exists kw, cursor = PDict kw /\ t !! "cursor" = Some (Cursor kw))
}.

(** Two worlds that differ at most in what [load] never reads before
    writing it: the configured target and the requests already sent. *)
Definition same_inputs (w1 w2 : world) : Prop :=
  environ w1 = environ w2 /\ tls w1 = tls w2 /\ inbox w1 = inbox w2.

(** The world of a thread that has not loaded anything yet, with the
    environment and the pending replies of [w]. *)
Definition pristine (w : world) : world :=
  {| environ := environ w; config := None; tls := ∅;
     inbox := inbox w; outbox := [] |}.

(** Worlds that agree on everything but the requests already sent. *)
Definition agree (w1 w2 : world) : Prop :=
  same_inputs w1 w2 /\ config w1 = config w2.

(** A statement that cannot tell apart two worlds related by [R]: it gives
    the same result in both and leaves them related. *)
Definition respects (R : world -> world -> Prop) {A} (m : M A) : Prop :=
  forall w1 w2, R w1 w2 ->
    fst (m w1) = fst (m w2) /\ R (snd (m w1)) (snd (m w2)).

(** The request an action sends in a loaded world. *)
Definition post_of (host : string) (port : Z) (uuid : pyval) (body : dict)
  : request :=
  {| req_verb := POST;
     req_url := {| url_host := host; url_port := port;
                   url_path := "/api/extension/response/"; url_id := uuid |};
     req_json := Some (PDict body) |}.

(** Two more payloads: one with the repo and opened files of the
    specification's example, a selection and terminals; one whose list of
    terminals holds a JSON null. *)
Definition payload_ab : dict :=
  [("request_id", PStr "r7"); ("repo_path", PStr "/proj");
   ("repo", PList [PStr "a.py"; PStr "b.py"]);
   ("opened_files", PList [PStr "b.py"]);
   ("current_file", PStr "a.py"); ("cursor", PNone);
   ("selection", PStr "x = 1");
   ("current_terminal", PStr "zsh");
   ("terminals", PList [PStr "bash"; PStr "zsh"])].

Definition payload_null_terminals : dict :=
  [("request_id", PStr "r2"); ("repo_path", PStr "/proj");
   ("repo", PList []); ("opened_files", PList []);
   ("current_file", PNone); ("cursor", PNone);
   ("current_terminal", PNone); ("terminals", PList [PNone])].

(** The dict [d] without its key [k]. *)
Definition without (k : string) (d : dict) : dict :=
  List.filter (fun kv => negb (String.eqb (fst kv) k)) d.

(** The sixteen accessors with their arguments, to speak of all of them at
    once. *)
Inductive accessor : Type :=
| GetRepoFiles
| GetRepoPath
| GetCurrentFile
| GetSelection
| GetClipBoard
| GetCursor
| GetChatHistory
| GetCurrentTerminal
| GetTerminals
| GetCodeApplyChange
| GetContextFiles
| GetPrompt
| GetApiKey (provider : string)
| GetApiKeys
| GetSetting (setting : string)
| GetUiAction.

Definition read (a : accessor) : M pyval :=
  match a with
  | GetRepoFiles => get_repo_files
  | GetRepoPath => get_repo_path
  | GetCurrentFile => get_current_file
  | GetSelection => get_selection
  | GetClipBoard => get_clip_board
  | GetCursor => get_cursor
  | GetChatHistory => get_chat_history
  | GetCurrentTerminal => get_current_terminal
  | GetTerminals => get_terminals
  | GetCodeApplyChange => get_code_apply_change
  | GetContextFiles => get_context_files
  | GetPrompt => get_prompt
  | GetApiKey provider => get_api_key provider
  | GetApiKeys => get_api_keys
  | GetSetting setting => get_setting setting
  | GetUiAction => get_ui_action
  end.

(** The attributes that [load] assigns on [self._local]. *)
Definition context_attrs : list string :=
  ["uuid"; "request_id"; "repo_path"; "selection"; "clip_board"; "prompt";
   "chat_history"; "current_terminal"; "terminals"; "api_keys"; "settings";
   "ui_action"; "code_apply_change"; "repo_files"; "current_file";
   "context_files"; "cursor"].

(** A statement that leaves every world related to the one it started in,
    whether it returns or raises. *)
Definition stable (I : world -> world -> Prop) {A} (m : M A) : Prop :=
  forall w, I w (snd (m w)).

(** Nothing changed but the thread-local store. *)
Definition only_tls (w w' : world) : Prop :=
  environ w' = environ w /\ config w' = config w
  /\ inbox w' = inbox w /\ outbox w' = outbox w.

(** Nothing changed but the replies consumed and the requests sent. *)
Definition only_wire (w w' : world) : Prop :=
  environ w' = environ w /\ config w' = config w /\ tls w' = tls w.

(** The attribute [k] is as it was. *)
Definition same_attr (k : string) (w w' : world) : Prop :=
  tls w' !! k = tls w !! k.

(** The request that [_load_data] sends. *)
Definition get_of (host : string) (port : Z) (uuid : pyval) : request :=
  {| req_verb := GET;
     req_url := {| url_host := host; url_port := port;
                   url_path := "/api/extension/data/"; url_id := uuid |};
     req_json := None |}.

(** What [_load_data] makes of a reply: the checks on the status and the
    body, in the order of the source. *)
Definition fetched (r : option reply) : result pyval :=
  match r with
  | Some (Reply status body) =>
      _ ← raise_for_status status;
      result ← response_json body;
      py_getitem result "data"
  | _ => Raise ConnectionError
  end.

(** Replies that carry a status, as opposed to failed connections. *)
Definition answers (l : list (Z * option pyval)) : list reply :=
  map (fun sb => Reply (fst sb) (snd sb)) l.

(** The body that an action posts for the request identifier [rid]. *)
Definition body_of (rid : pyval) (a : action) : dict :=
  action_args a ++ [("method", PStr (action_name a)); ("request_id", rid)].

(** The environment names a host and a port that parses. *)
Definition environ_ok (w : world) (uuid host : string) (port : Z) : Prop :=
  environ w !! "EXTENSION_UUID" = Some uuid
  /\ environ w !! "HOST" = Some host
  /\ exists port_text,
       environ w !! "PORT" = Some port_text /\ py_int port_text = Ok port.

(** A payload with API keys, settings, a pending change, a cursor, chat
    history and context files. *)
Definition payload_full : dict :=
  [("request_id", PStr "r9"); ("repo_path", PStr "/proj");
   ("repo", PList [PStr "a.py"]); ("opened_files", PList [PStr "a.py"]);
   ("current_file", PStr "a.py"); ("current_file_content", PStr "x = 1");
   ("cursor", PDict [("row", PInt 3); ("column", PInt 0)]);
   ("chat_history", PList [PDict [("role", PStr "user"); ("content", PStr "hi")]]);
   ("api_keys", PDict [("openrouter", PDict [("key", PStr "k1")])]);
   ("settings", PDict [("model", PStr "m1")]);
   ("code_apply_change",
    PDict [("target_file_path", PStr "a.py"); ("patch_text", PStr "+y")]);
   ("context_files", PDict [("docs", PList [PStr "README.md"])])].

(** * Properties *)

(** ** Reasoning about statements *)

Lemma bind_Ok {A B} (m : M A) (f : A -> M B) w b w' :
  (m ≫= f) w = (Ok b, w') ->
  exists a w1, m w = (Ok a, w1) /\ f a w1 = (Ok b, w').
Proof.
  unfold mbind, M_mbind, M_bind.
  destruct (m w) as [[a|e] w1]; [eauto | discriminate].
Qed.

Lemma bind_Raise {A B} (m : M A) (f : A -> M B) w e w' :
  m w = (Raise e, w') -> (m ≫= f) w = (Raise e, w').
Proof. intros H. unfold mbind, M_mbind, M_bind. now rewrite H. Qed.

Lemma bind_step {A B} (m : M A) (f : A -> M B) w a w1 :
  m w = (Ok a, w1) -> (m ≫= f) w = f a w1.
Proof. intros H. unfold mbind, M_mbind, M_bind. now rewrite H. Qed.

Lemma lift_Ok {A} (r : result A) w a w' :
  lift r w = (Ok a, w') -> r = Ok a /\ w' = w.
Proof. unfold lift. intros H. now inversion H. Qed.

Lemma setattr_Ok name v w u w' :
  setattr name v w = (Ok u, w') -> w' = with_tls (insert name v) w.
Proof. unfold setattr. intros H. now inversion H. Qed.

Lemma ret_Ok {A} (a : A) w b w' :
  mret (M := M) a w = (Ok b, w') -> b = a /\ w' = w.
Proof. unfold mret, M_mret, M_ret. intros H. now inversion H. Qed.

Lemma environ_get_Ok k w v w' :
  environ_get k w = (Ok v, w') -> environ w !! k = Some v /\ w' = w.
Proof.
  unfold environ_get. destruct (environ w !! k); intros [= <- <-]; auto.
Qed.

Lemma getattr_Ok name w v w' :
  getattr name w = (Ok v, w') -> tls w !! name = Some v /\ w' = w.
Proof.
  unfold getattr. destruct (tls w !! name); intros [= <- <-]; auto.
Qed.

Lemma environ_get_run k w v :
  environ w !! k = Some v -> environ_get k w = (Ok v, w).
Proof. unfold environ_get. now intros ->. Qed.

Lemma setattr_step {B} name v (f : unit -> M B) w :
  (setattr name v ≫= f) w = f tt (with_tls (insert name v) w).
Proof. reflexivity. Qed.

Lemma lift_step {A B} (a : A) (f : A -> M B) w : (lift (Ok a) ≫= f) w = f a w.
Proof. reflexivity. Qed.

Lemma configure_step {B} host port (f : unit -> M B) w :
  (configure host port ≫= f) w = f tt (with_config (Some (host, port)) w).
Proof. reflexivity. Qed.

Lemma http_run r w status body rest :
  inbox w = Reply status body :: rest ->
  http r w = (Ok (status, body), with_wire rest (outbox w ++ [r]) w).
Proof. unfold http. now intros ->. Qed.

Lemma config_host_run w host port :
  config w = Some (host, port) -> config_host w = (Ok host, w).
Proof. unfold config_host. now intros ->. Qed.

Lemma config_port_run w host port :
  config w = Some (host, port) -> config_port w = (Ok port, w).
Proof. unfold config_port. now intros ->. Qed.

Lemma getattr_run name w v :
  tls w !! name = Some v -> getattr name w = (Ok v, w).
Proof. unfold getattr. now intros ->. Qed.

Lemma configure_Ok host port w u w' :
  configure host port w = (Ok u, w') -> w' = with_config (Some (host, port)) w.
Proof. unfold configure. now intros [= <-]. Qed.

Lemma config_host_Ok w h w' :
  config_host w = (Ok h, w') -> (exists p, config w = Some (h, p)) /\ w' = w.
Proof.
  unfold config_host. destruct (config w) as [[h' p]|]; intros [= <- <-]; eauto.
Qed.

Lemma config_port_Ok w p w' :
  config_port w = (Ok p, w') -> (exists h, config w = Some (h, p)) /\ w' = w.
Proof.
  unfold config_port. destruct (config w) as [[h p']|]; intros [= <- <-]; eauto.
Qed.

Lemma http_Ok r w status body w' :
  http r w = (Ok (status, body), w') ->
  exists rest, inbox w = Reply status body :: rest
               /\ w' = with_wire rest (outbox w ++ [r]) w.
Proof.
  unfold http. destruct (inbox w) as [|[|s b] rest]; try discriminate.
  intros [= <- <- <-]. eauto.
Qed.

Ltac inv_M :=
  repeat match goal with
    | H : (_ ≫= _) _ = (Ok _, _) |- _ =>
        apply bind_Ok in H; destruct H as (? & ? & ? & H)
    | H : lift _ _ = (Ok _, _) |- _ =>
        apply lift_Ok in H; destruct H as [? ?]; subst
    | H : setattr _ _ _ = (Ok _, _) |- _ =>
        apply setattr_Ok in H; subst
    | H : mret _ _ = (Ok _, _) |- _ =>
        apply ret_Ok in H; destruct H as [? ?]; subst
    end.

Ltac lookup_attr :=
  cbn [tls with_tls];
  repeat (rewrite lookup_insert_ne by discriminate);
  try rewrite lookup_insert_eq; try reflexivity.

Lemma py_getitem_Ok v k x :
  py_getitem v k = Ok x -> exists d, v = PDict d /\ assoc k d = Some x.
Proof.
  destruct v; try discriminate. simpl.
  destruct (assoc k d) eqn:E; [|discriminate].
  intros [= ->]. eauto.
Qed.

Ltac norm_payload :=
  repeat match goal with
    | H : Ok _ = Ok _ |- _ => injection H as <-
    | H : py_getitem (PDict _) _ = Ok _ |- _ =>
        apply py_getitem_Ok in H; destruct H as (? & [= <-] & H)
    end.

Lemma py_get_dict d k dflt : py_get (PDict d) k dflt = Ok (default dflt (assoc k d)).
Proof. reflexivity. Qed.

Lemma load_context_Ok kwargs w w' :
  load_context kwargs w = (Ok tt, w') ->
  exists payload,
    kwargs = PDict payload
    /\ loaded payload (tls w')
    /\ environ w' = environ w /\ config w' = config w
    /\ inbox w' = inbox w /\ outbox w' = outbox w
    /\ tls w' !! "uuid" = tls w !! "uuid".
Proof.
  unfold load_context. intros H.
  inv_M.
  match goal with
  | H : py_getitem kwargs "request_id" = Ok _ |- _ =>
      destruct (py_getitem_Ok _ _ _ H) as [payload [-> _]]
  end.
  rewrite py_get_dict in *.
  norm_payload.
  match goal with
  | H : match ?cf with PNone => _ | _ => _ end ?w0 = (Ok _, ?w1),
    Hrp : assoc "repo_path" payload = Some ?rp |- _ =>
      assert (w1 = with_tls
                     (insert "current_file"
                        (match cf with
                         | PNone => PNone
                         | _ => File cf rp
                                  (default PNone
                                     (assoc "current_file_content" payload))
                                  true
                         end)) w0) as ->
        by (destruct cf; inv_M; rewrite ?py_get_dict in *; norm_payload;
            congruence);
      clear H
  end.
  match goal with
  | H : match ?cu with PNone => _ | _ => _ end ?w0 = (Ok _, ?w1) |- _ =>
      assert (exists c, w1 = with_tls (insert "cursor" c) w0
                        /\ (cu = PNone /\ c = PNone
                            \/ exists kw, cu = PDict kw /\ c = Cursor kw))
        as (c & -> & Hc);
      [ destruct cu; inv_M; norm_payload; simplify_eq/=;
        eexists; (split; [reflexivity|]); eauto
      | clear H ]
  end.
  exists payload. split; [reflexivity|].
  split; [| repeat split; try reflexivity; lookup_attr ].
  constructor; lookup_attr; eauto 15.
  destruct Hc as [[-> ->] | (kw & -> & ->)]; eauto 10.
Qed.

(** What a successful [load] has read and what it leaves behind. *)
Lemma load_Ok w w' :
  load w = (Ok tt, w') ->
  exists uuid host port_text port payload,
    environ w !! "EXTENSION_UUID" = Some uuid
    /\ environ w !! "HOST" = Some host
    /\ environ w !! "PORT" = Some port_text
    /\ py_int port_text = Ok port
    /\ next_payload w = Some (PDict payload)
    /\ loaded payload (tls w')
    /\ tls w' !! "uuid" = Some (PStr uuid)
    /\ config w' = Some (host, port)
    /\ environ w' = environ w
    /\ inbox w' = tail (inbox w)
    /\ outbox w' = outbox w ++
                   [{| req_verb := GET;
                       req_url := {| url_host := host; url_port := port;
                                     url_path := "/api/extension/data/";
                                     url_id := PStr uuid |};
                       req_json := None |}].
Proof.
  unfold load, _load_data. intros H.
  apply bind_Ok in H as (uuid & ? & [Huuid ->]%environ_get_Ok & H).
  apply bind_Ok in H as (? & ? & ->%setattr_Ok & H).
  apply bind_Ok in H as (host & ? & [Hhost ->]%environ_get_Ok & H).
  apply bind_Ok in H as (port_text & ? & [Hport ->]%environ_get_Ok & H).
  apply bind_Ok in H as (port & ? & [Hint ->]%lift_Ok & H).
  apply bind_Ok in H as (? & ? & ->%configure_Ok & H).
  apply bind_Ok in H as (kwargs & w1 & Hfetch & H).
  apply bind_Ok in Hfetch as (host' & ? & [[? Hc1] ->]%config_host_Ok & Hfetch).
  apply bind_Ok in Hfetch as (port' & ? & [[? Hc2] ->]%config_port_Ok & Hfetch).
  apply bind_Ok in Hfetch as (uuid' & ? & [Hu ->]%getattr_Ok & Hfetch).
  apply bind_Ok in Hfetch as ([status body] & ? & (rest & Hin & ->)%http_Ok & Hfetch).
  apply bind_Ok in Hfetch as (? & ? & [Hst ->]%lift_Ok & Hfetch).
  apply bind_Ok in Hfetch as (res & ? & [Hjson ->]%lift_Ok & Hfetch).
  apply lift_Ok in Hfetch as [Hdata ->].
  apply load_context_Ok in H as (payload & -> & Hld & He & Hc & Hi & Ho & Hid).
  simpl in *. simplify_eq. rewrite lookup_insert_eq in Hu, Hid. simplify_eq.
  eexists _, _, _, _, payload.
  split_and!; eauto.
  - unfold next_payload. rewrite Hin.
    destruct body; [|discriminate]. simpl in Hjson. simplify_eq.
    now rewrite Hdata.
  - now rewrite Hin.
Qed.

Lemma run_exec {A} (m : M A) w : m w = (run m w, exec m w).
Proof. unfold run, exec. now destruct (m w). Qed.

Lemma load_run_Ok w :
  run load w = Ok tt -> load w = (Ok tt, exec load w).
Proof. intros H. rewrite <- H. apply run_exec. Qed.

Lemma getattr_value name w v :
  tls w !! name = Some v -> run (getattr name) w = Ok v.
Proof. intros H. unfold run. now rewrite (getattr_run _ _ _ H). Qed.

(** The payload that a successful [load] has used is the one of the
    next reply. *)
Lemma load_loaded w payload :
  next_payload w = Some (PDict payload) ->
  run load w = Ok tt ->
  loaded payload (tls (exec load w)).
Proof.
  intros Hp H%load_run_Ok.
  apply load_Ok in H as (? & ? & ? & ? & payload' & _ & _ & _ & _ & Hp' & H & _).
  congruence.
Qed.

(** ** Terminals *)

Lemma get_terminals_loop cur ts w :
  tls w !! "current_terminal" = Some cur ->
  M_map (fun terminal =>
           current_terminal ← getattr "current_terminal";
           let is_current_terminal := py_eq terminal current_terminal in
           mret (Terminal terminal is_current_terminal)) ts w
  = (Ok (map (fun t => Terminal t (py_eq t cur)) ts), w).
Proof.
  intros Hcur. induction ts as [|t ts IH]; [reflexivity|].
  cbn [M_map map].
  rewrite (bind_step _ _ w (Terminal t (py_eq t cur)) w).
  - now rewrite (bind_step _ _ w _ w IH).
  - now rewrite (bind_step _ _ w cur w (getattr_run _ _ _ Hcur)).
Qed.

Lemma get_terminals_value cur ts w :
  tls w !! "current_terminal" = Some cur ->
  tls w !! "terminals" = Some (PList ts) ->
  run get_terminals w = Ok (PList (map (fun t => Terminal t (py_eq t cur)) ts)).
Proof.
  intros Hcur Hts. unfold run, get_terminals.
  rewrite (bind_step _ _ w _ w (getattr_run _ _ _ Hts)).
  rewrite (bind_step _ _ w ts w eq_refl).
  now rewrite (bind_step _ _ w _ w (get_terminals_loop cur ts w Hcur)).
Qed.

Lemma count_current_flags cur ts :
  count_current (map (fun t => Terminal t (py_eq t cur)) ts)
  = count_matches cur ts.
Proof.
  unfold count_current, count_matches.
  induction ts as [|t ts IH]; [reflexivity|].
  cbn [map List.filter]. unfold is_current at 1, Terminal at 1.
  cbn [String.eqb Ascii.eqb Bool.eqb andb].
  destruct (py_eq t cur); cbn [length]; now rewrite IH.
Qed.

Lemma py_eq_None t : py_eq t PNone = true <-> t = PNone.
Proof. destruct t; simpl; split; congruence. Qed.

Lemma count_matches_no_None ts :
  Forall (fun t => t <> PNone) ts -> count_matches PNone ts = 0%nat.
Proof.
  unfold count_matches. induction 1 as [|t ts Ht _ IH]; [reflexivity|].
  cbn [List.filter]. destruct (py_eq t PNone) eqn:E; [|exact IH].
  now apply py_eq_None in E.
Qed.

(** C5 (as amended): after a successful [load] of a payload with
    [current_terminal] and a list [terminals], [get_terminals()] returns one
    Terminal per stored identifier, flagged current exactly when the
    identifier compares equal to [current_terminal].  So exactly one is
    flagged when [current_terminal] is not None and equals exactly one
    identifier, and it is a matching one; when [current_terminal] is None
    the flagged entries are those whose identifier is None: none at all when
    every identifier is an actual one. *)
Theorem get_terminals_marks_matches w payload cur ts :
  next_payload w = Some (PDict payload) ->
  assoc "current_terminal" payload = Some cur ->
  assoc "terminals" payload = Some (PList ts) ->
  run load w = Ok tt ->
  let res := map (fun t => Terminal t (py_eq t cur)) ts in
  run get_terminals (exec load w) = Ok (PList res)
  /\ length res = length ts
  /\ (cur <> PNone -> count_matches cur ts = 1%nat ->
      count_current res = 1%nat
      /\ forall t, In (Terminal t true) res -> In t ts /\ py_eq t cur = true)
  /\ (cur = PNone -> count_current res = count_matches PNone ts)
  /\ (cur = PNone -> Forall (fun t => t <> PNone) ts ->
      count_current res = 0%nat).
Proof.
  intros Hp Hcur Hts Hload res.
  pose proof (load_loaded _ _ Hp Hload) as L.
  split_and!.
  - apply get_terminals_value.
    + rewrite (ld_current_terminal _ _ L), Hcur. reflexivity.
    + rewrite (ld_terminals _ _ L), Hts. reflexivity.
  - apply length_map.
  - intros _ Hone. split.
    + subst res. now rewrite count_current_flags.
    + intros t Hin. apply in_map_iff in Hin as (t' & Heq & Hin).
      injection Heq as -> Hflag. now split.
  - intros ->. apply count_current_flags.
  - intros -> Hall. subst res. rewrite count_current_flags.
    now apply count_matches_no_None.
Qed.

Lemma get_terminals_marks_matches_witness :
  run get_terminals (exec load (start [ok_reply payload_ab]))
  = Ok (PList [Terminal (PStr "bash") false; Terminal (PStr "zsh") true])
  /\ count_current [Terminal (PStr "bash") false; Terminal (PStr "zsh") true]
     = 1%nat.
Proof.
  pose proof (get_terminals_marks_matches (start [ok_reply payload_ab])
                payload_ab (PStr "zsh") [PStr "bash"; PStr "zsh"]
                eq_refl eq_refl eq_refl eq_refl) as (H1 & _ & H2 & _).
  split; [exact H1|].
  apply H2; [discriminate | reflexivity].
Defined.

(** C5, as stated, fails: with [current_terminal] None and a None among the
    stored identifiers, that entry is flagged current. *)
Lemma get_terminals_None_entry_is_marked :
  assoc "current_terminal" payload_null_terminals = Some PNone
  /\ assoc "terminals" payload_null_terminals = Some (PList [PNone])
  /\ run load (start [ok_reply payload_null_terminals]) = Ok tt
  /\ run get_terminals (exec load (start [ok_reply payload_null_terminals]))
     = Ok (PList [Terminal PNone true])
  /\ count_current [Terminal PNone true] = 1%nat.
Proof. vm_compute. repeat split. Qed.

Lemma current_terminal_value w payload :
  loaded payload (tls w) ->
  run get_current_terminal w
  = Ok (Terminal (default PNone (assoc "current_terminal" payload)) true)
  /\ (assoc "current_terminal" payload = None
      \/ assoc "current_terminal" payload = Some PNone ->
      run get_current_terminal w = Ok (Terminal PNone true)).
Proof.
  intros L.
  assert (run get_current_terminal w
          = Ok (Terminal (default PNone (assoc "current_terminal" payload)) true))
    as H.
  { unfold run, get_current_terminal.
    now rewrite (bind_step _ _ _ _ _
                   (getattr_run _ _ _ (ld_current_terminal _ _ L))). }
  split; [exact H|].
  intros [Hnone | Hnone]; rewrite H, Hnone; reflexivity.
Qed.

(** C9: after a successful [load], [get_current_terminal()] returns a
    Terminal flagged current that wraps the payload's [current_terminal];
    when the payload has none, or has None, it wraps None. *)
Theorem get_current_terminal_flagged_current w payload :
  next_payload w = Some (PDict payload) ->
  run load w = Ok tt ->
  run get_current_terminal (exec load w)
  = Ok (Terminal (default PNone (assoc "current_terminal" payload)) true)
  /\ (assoc "current_terminal" payload = None
      \/ assoc "current_terminal" payload = Some PNone ->
      run get_current_terminal (exec load w) = Ok (Terminal PNone true)).
Proof.
  intros Hp Hload.
  apply current_terminal_value.
  now apply load_loaded.
Qed.

Lemma get_current_terminal_flagged_current_witness :
  run get_current_terminal (exec load (start [ok_reply payload_min]))
  = Ok (Terminal PNone true).
Proof.
  exact (proj1 (get_current_terminal_flagged_current
                  (start [ok_reply payload_min]) payload_min eq_refl eq_refl)).
Defined.

(** ** Files *)

Lemma py_set_list opened s : py_set (PList opened) = Ok s -> s = opened.
Proof.
  unfold py_set. cbn [py_iter].
  destruct (forallb hashable opened); congruence.
Qed.

Lemma repo_files_value repo_path opened paths files :
  result_map (fun p => is_open ← py_in_set p opened;
                       mret (File p repo_path PNone is_open)) paths
  = Ok files ->
  files = map (fun p => File p repo_path PNone (existsb (py_eq p) opened)) paths.
Proof.
  revert files. induction paths as [|p paths IH]; intros files.
  - now intros [= <-].
  - cbn [result_map map]. unfold py_in_set at 1.
    destruct (hashable p); [|discriminate].
    cbn [mbind result_mbind result_bind mret result_ret].
    destruct (result_map _ paths) as [ys|]; [|discriminate].
    intros [= <-]. now rewrite (IH ys eq_refl).
Qed.

Lemma py_eq_str p x : py_eq (PStr p) x = true <-> x = PStr p.
Proof.
  destruct x; simpl; split; try congruence.
  - intros ->%String.eqb_eq. reflexivity.
  - intros [= ->]. apply String.eqb_refl.
Qed.

Lemma str_in_opened p opened :
  existsb (py_eq (PStr p)) opened = true <-> In (PStr p) opened.
Proof.
  rewrite existsb_exists. split.
  - intros (x & Hin & ->%py_eq_str). exact Hin.
  - intros Hin. exists (PStr p). split; [exact Hin | now apply py_eq_str].
Qed.

(** C7: after a successful [load] of a payload whose [repo] and
    [opened_files] are lists, [get_repo_files()] returns one File record per
    repo path, in order, flagged opened exactly when the path occurs in
    [opened_files] (for a path that is a string, occurrence is plain
    membership).  With repo = ["a.py", "b.py"] and opened_files = ["b.py"]:
    a.py not opened, b.py opened. *)
Theorem repo_files_flag_opened w payload repo opened :
  next_payload w = Some (PDict payload) ->
  assoc "repo" payload = Some (PList repo) ->
  assoc "opened_files" payload = Some (PList opened) ->
  run load w = Ok tt ->
  exists repo_path,
    assoc "repo_path" payload = Some repo_path
    /\ run get_repo_files (exec load w)
       = Ok (PList (map (fun p => File p repo_path PNone
                                    (existsb (py_eq p) opened)) repo))
    /\ forall p : string,
         existsb (py_eq (PStr p)) opened = true <-> In (PStr p) opened.
Proof.
  intros Hp Hrepo Hopened Hload.
  pose proof (load_loaded _ _ Hp Hload) as L.
  destruct (ld_repo_files _ _ L)
    as (rp & s & repo' & paths & files & Hrp & Hs & Hr & Hit & Hmap & Hattr).
  rewrite Hopened in Hs. cbn [default] in Hs. apply py_set_list in Hs as ->.
  rewrite Hrepo in Hr. injection Hr as <-. injection Hit as <-.
  apply repo_files_value in Hmap as ->.
  exists rp. split_and!; [exact Hrp | | intros p; apply str_in_opened].
  now apply getattr_value.
Qed.

Lemma repo_files_flag_opened_witness :
  exists repo_path,
    assoc "repo_path" payload_ab = Some repo_path
    /\ run get_repo_files (exec load (start [ok_reply payload_ab]))
       = Ok (PList (map (fun p => File p repo_path PNone
                                    (existsb (py_eq p) [PStr "b.py"]))
                      [PStr "a.py"; PStr "b.py"]))
    /\ forall p : string,
         existsb (py_eq (PStr p)) [PStr "b.py"] = true
         <-> In (PStr p) [PStr "b.py"].
Proof.
  exact (repo_files_flag_opened (start [ok_reply payload_ab]) payload_ab
           [PStr "a.py"; PStr "b.py"] [PStr "b.py"]
           eq_refl eq_refl eq_refl eq_refl).
Defined.

(** The example of the specification, run on the model. *)
Example repo_files_ab :
  run get_repo_files (exec load (start [ok_reply payload_ab]))
  = Ok (PList [File (PStr "a.py") (PStr "/proj") PNone false;
               File (PStr "b.py") (PStr "/proj") PNone true]).
Proof. vm_compute. reflexivity. Qed.

(** C10: after a successful [load] of a payload whose [current_file] is
    not None, [get_current_file()] returns a File record for that path that
    is flagged opened, whatever [opened_files] holds. *)
Theorem current_file_flagged_opened w payload path :
  next_payload w = Some (PDict payload) ->
  assoc "current_file" payload = Some path ->
  path <> PNone ->
  run load w = Ok tt ->
  exists repo_path,
    assoc "repo_path" payload = Some repo_path
    /\ run get_current_file (exec load w)
       = Ok (File path repo_path
               (default PNone (assoc "current_file_content" payload)) true).
Proof.
  intros Hp Hcf Hnn Hload.
  pose proof (load_loaded _ _ Hp Hload) as L.
  destruct (ld_current_file _ _ L) as (rp & cf & Hrp & Hcf' & Hattr).
  rewrite Hcf in Hcf'. injection Hcf' as <-.
  exists rp. split; [exact Hrp|].
  apply getattr_value. rewrite Hattr. now destruct path.
Qed.

Lemma current_file_flagged_opened_witness :
  exists repo_path,
    assoc "repo_path" payload_ab = Some repo_path
    /\ run get_current_file (exec load (start [ok_reply payload_ab]))
       = Ok (File (PStr "a.py") repo_path PNone true).
Proof.
  refine (current_file_flagged_opened (start [ok_reply payload_ab]) payload_ab
            (PStr "a.py") eq_refl eq_refl _ eq_refl).
  discriminate.
Defined.

(** ** Absent fields *)

Lemma result_cases (r : result unit) : r = Ok tt \/ exists e, r = Raise e.
Proof. destruct r as [[]|e]; eauto. Qed.

Lemma loaded_required payload t k :
  loaded payload t -> In k required_fields -> is_Some (assoc k payload).
Proof.
  intros L Hk. unfold required_fields in Hk. cbn [In] in Hk.
  destruct Hk as [<- | [<- | [<- | [<- | [<- | []]]]]].
  - destruct (ld_request_id _ _ L) as (v & -> & _). eauto.
  - destruct (ld_repo_path _ _ L) as (v & -> & _). eauto.
  - destruct (ld_repo_files _ _ L) as (? & ? & v & ? & ? & _ & _ & -> & _). eauto.
  - destruct (ld_current_file _ _ L) as (? & v & _ & -> & _). eauto.
  - destruct (ld_cursor _ _ L) as (v & -> & _). eauto.
Qed.

(** The fields read with a default, and the fields read without. *)
Lemma absent_fields_cases w payload :
  next_payload w = Some (PDict payload) ->
  (run load w = Ok tt ->
   let w' := exec load w in
   (assoc "selection" payload = None -> run get_selection w' = Ok PNone)
   /\ (assoc "clip_board" payload = None -> run get_clip_board w' = Ok PNone)
   /\ (assoc "prompt" payload = None -> run get_prompt w' = Ok PNone)
   /\ (assoc "ui_action" payload = None -> run get_ui_action w' = Ok PNone)
   /\ (assoc "chat_history" payload = None ->
       run get_chat_history w' = Ok (PList []))
   /\ (assoc "current_terminal" payload = None ->
       run get_current_terminal w' = Ok (Terminal PNone true))
   /\ (assoc "terminals" payload = None -> run get_terminals w' = Ok (PList []))
   /\ (assoc "api_keys" payload = None ->
       run get_api_keys w' = Ok (PList [])
       /\ forall provider, run (get_api_key provider) w' = Ok PNone)
   /\ (assoc "settings" payload = None ->
       forall setting, run (get_setting setting) w' = Ok PNone)
   /\ (assoc "context_files" payload = None ->
       run get_context_files w' = Ok (PDict []))
   /\ (assoc "current_file_content" payload = None ->
       forall path, assoc "current_file" payload = Some path -> path <> PNone ->
       exists repo_path,
         run get_current_file w' = Ok (File path repo_path PNone true)))
  /\ (forall k, In k required_fields -> assoc k payload = None ->
      exists e, run load w = Raise e).
Proof.
  intros Hp. split.
  - intros Hload w'.
    pose proof (load_loaded _ _ Hp Hload) as L. fold w' in L.
    split_and!.
    + intros E. apply getattr_value. now rewrite (ld_selection _ _ L), E.
    + intros E. apply getattr_value. now rewrite (ld_clip_board _ _ L), E.
    + intros E. apply getattr_value. now rewrite (ld_prompt _ _ L), E.
    + intros E. apply getattr_value. now rewrite (ld_ui_action _ _ L), E.
    + intros E. apply getattr_value.
      destruct (ld_chat_history _ _ L) as (entries & messages & Hit & Hmap & ->).
      rewrite E in Hit. injection Hit as <-. now injection Hmap as <-.
    + intros E.
      destruct (current_terminal_value w' payload L) as [_ H].
      apply H. now left.
    + intros E.
      apply (get_terminals_value
               (default PNone (assoc "current_terminal" payload)) [] w').
      * apply (ld_current_terminal _ _ L).
      * now rewrite (ld_terminals _ _ L), E.
    + intros E.
      assert (tls w' !! "api_keys" = Some (PDict [])) as Hk
          by now rewrite (ld_api_keys _ _ L), E.
      split; [|intros provider]; unfold run.
      * unfold get_api_keys.
        now rewrite (bind_step _ _ _ _ _ (getattr_run _ _ _ Hk)).
      * unfold get_api_key.
        now rewrite (bind_step _ _ _ _ _ (getattr_run _ _ _ Hk)).
    + intros E setting.
      assert (tls w' !! "settings" = Some (PDict [])) as Hk
          by now rewrite (ld_settings _ _ L), E.
      unfold run, get_setting.
      now rewrite (bind_step _ _ _ _ _ (getattr_run _ _ _ Hk)).
    + intros E. apply getattr_value.
      destruct (ld_context_files _ _ L) as (rp & items & ctx & _ & Hit & Hc & ->).
      rewrite E in Hit. injection Hit as <-. now injection Hc as <-.
    + intros E path Hcf Hnn.
      destruct (ld_current_file _ _ L) as (rp & cf & _ & Hcf' & Hattr).
      rewrite Hcf in Hcf'. injection Hcf' as <-.
      exists rp. apply getattr_value. rewrite Hattr, E. now destruct path.
  - intros k Hk Habs.
    destruct (result_cases (run load w)) as [Hload | He]; [|exact He].
    pose proof (load_loaded _ _ Hp Hload) as L.
    destruct (loaded_required _ _ _ L Hk) as [v Hv]. congruence.
Qed.

(** C1, as stated, fails: the payload of the specification's scenario
    without its [cursor] (or [current_file], [repo], [repo_path],
    [request_id]) makes [load] raise KeyError, so that no accessor gets to
    return a default. *)
Lemma absent_required_field_raises :
  assoc "cursor" (without "cursor" payload_min) = None
  /\ run (load;; get_cursor) (start [ok_reply (without "cursor" payload_min)])
     = Raise (KeyError "cursor")
  /\ run (load;; get_current_file)
       (start [ok_reply (without "current_file" payload_min)])
     = Raise (KeyError "current_file")
  /\ run (load;; get_repo_files) (start [ok_reply (without "repo" payload_min)])
     = Raise (KeyError "repo")
  /\ run (load;; get_repo_path)
       (start [ok_reply (without "repo_path" payload_min)])
     = Raise (KeyError "repo_path")
  /\ run load (start [ok_reply (without "request_id" payload_min)])
     = Raise (KeyError "request_id").
Proof. vm_compute. repeat split. Qed.

(** Two more absent fields, outside the amended statement: without
    [opened_files], [set(None)] raises; without [code_apply_change], [load]
    stores None and the accessor raises when it subscripts it. *)
Example absent_opened_files :
  run load (start [ok_reply (without "opened_files" payload_min)])
  = Raise TypeError.
Proof. vm_compute. reflexivity. Qed.

Example absent_code_apply_change :
  run load (start [ok_reply payload_min]) = Ok tt
  /\ run get_code_apply_change (exec load (start [ok_reply payload_min]))
     = Raise TypeError.
Proof. vm_compute. split; reflexivity. Qed.

(** ** The fetch *)

(** C3 (as amended): when the host answers the GET of [load] with an error
    status (400 to 599, what [raise_for_status] raises for), [load] raises
    the HTTPError, a TransportError; the thread-local store has only gained
    the [uuid] read from the environment, nothing of the body. *)
Theorem load_error_status_raises w uuid host port_text port status body rest :
  environ w !! "EXTENSION_UUID" = Some uuid ->
  environ w !! "HOST" = Some host ->
  environ w !! "PORT" = Some port_text ->
  py_int port_text = Ok port ->
  inbox w = Reply status body :: rest ->
  400 <= status < 600 ->
  run load w = Raise (HTTPError status)
  /\ is_TransportError (HTTPError status) = true
  /\ tls (exec load w) = <["uuid" := PStr uuid]> (tls w)
  /\ outbox (exec load w)
     = outbox w ++ [{| req_verb := GET;
                       req_url := {| url_host := host; url_port := port;
                                     url_path := "/api/extension/data/";
                                     url_id := PStr uuid |};
                       req_json := None |}].
Proof.
  intros Hu Hh Hp Hint Hin Hst.
  assert (is_error_status status = true) as Herr
      by (unfold is_error_status; apply andb_true_iff; split; lia).
  assert (load w
          = (Raise (HTTPError status),
             with_wire rest
               (outbox w ++ [{| req_verb := GET;
                                req_url := {| url_host := host; url_port := port;
                                              url_path := "/api/extension/data/";
                                              url_id := PStr uuid |};
                                req_json := None |}])
               (with_config (Some (host, port))
                  (with_tls (insert "uuid" (PStr uuid)) w)))) as Hrun.
  { unfold load.
    rewrite (bind_step _ _ _ _ _ (environ_get_run _ _ _ Hu)), setattr_step.
    rewrite (bind_step (environ_get "HOST") _ _ host _
               (environ_get_run "HOST" (with_tls _ w) _ Hh)).
    rewrite (bind_step (environ_get "PORT") _ _ port_text _
               (environ_get_run "PORT" (with_tls _ w) _ Hp)).
    rewrite Hint, lift_step, configure_step.
    apply bind_Raise. unfold _load_data.
    unfold mbind, M_mbind, M_bind, config_host, config_port, getattr, http.
    unfold with_wire, with_config, with_tls, lift, raise_for_status.
    cbn -[is_error_status insert lookup].
    rewrite lookup_insert_eq, Hin.
    cbn -[is_error_status insert]. now rewrite Herr. }
  unfold run, exec. rewrite Hrun. cbn. auto.
Qed.

Lemma load_error_status_raises_witness :
  run load (start [Reply 503 None]) = Raise (HTTPError 503)
  /\ tls (exec load (start [Reply 503 None])) = <["uuid" := PStr "u-1"]> ∅.
Proof.
  pose proof (load_error_status_raises (start [Reply 503 None])
                "u-1" "localhost" "8080" 8080 503 None []
                eq_refl eq_refl eq_refl eq_refl eq_refl) as H.
  destruct H as (H1 & _ & H2 & _); [lia|].
  split; [exact H1 | exact H2].
Defined.

(** C3, as stated, fails for the statuses below 400 that are no success:
    [raise_for_status] lets them pass.  A reply with status 300 and a JSON
    body makes [load] return and build the context from that body; a reply
    with status 304 and no body makes it raise JSONDecodeError, which is no
    TransportError. *)
Lemma load_status_3xx_is_not_checked :
  is_error_status 300 = false
  /\ run load (start [Reply 300 (Some (PDict [("data", PDict payload_min)]))])
     = Ok tt
  /\ run get_repo_path
       (exec load (start [Reply 300 (Some (PDict [("data", PDict payload_min)]))]))
     = Ok (PStr "/proj")
  /\ is_error_status 304 = false
  /\ run load (start [Reply 304 None]) = Raise JSONDecodeError
  /\ is_TransportError JSONDecodeError = false.
Proof. vm_compute. repeat split. Qed.

(** ** Outbound actions *)

(** [_dump] in a world where the session is loaded. *)
Lemma dump_run method kwargs w rid uuid host port :
  tls w !! "request_id" = Some rid ->
  tls w !! "uuid" = Some uuid ->
  config w = Some (host, port) ->
  assoc "method" kwargs = None ->
  _dump method kwargs w
  = (match inbox w with
     | Reply _ _ :: _ => Ok tt
     | _ => Raise ConnectionError
     end,
     with_wire (tail (inbox w))
       (outbox w ++
        [post_of host port uuid
           (dict_set "request_id" rid (dict_set "method" (PStr method) kwargs))])
       w).
Proof.
  intros Hrid Huuid Hcfg Hm. unfold _dump.
  rewrite Hm.
  replace (bool_decide (is_Some (@None pyval))) with false
    by (symmetry; apply bool_decide_eq_false; intros [? [=]]).
  rewrite lift_step.
  rewrite (bind_step _ _ _ _ _ (getattr_run _ _ _ Hrid)).
  rewrite (bind_step _ _ _ _ _ (config_host_run _ _ _ Hcfg)).
  rewrite (bind_step _ _ _ _ _ (config_port_run _ _ _ Hcfg)).
  rewrite (bind_step _ _ _ _ _ (getattr_run _ _ _ Huuid)).
  unfold mbind, M_mbind, M_bind, http, post_of.
  destruct (inbox w) as [|[|status body] rest]; reflexivity.
Qed.

Lemma call_dump a : call a = _dump (action_name a) (action_args a).
Proof. now destruct a. Qed.

Lemma action_args_no_method a : assoc "method" (action_args a) = None.
Proof. now destruct a. Qed.

Lemma action_body a rid :
  dict_set "request_id" rid
    (dict_set "method" (PStr (action_name a)) (action_args a))
  = action_args a ++ [("method", PStr (action_name a)); ("request_id", rid)].
Proof. now destruct a. Qed.

Lemma action_body_lookup a rid :
  let body :=
    action_args a ++ [("method", PStr (action_name a)); ("request_id", rid)] in
  assoc "method" body = Some (PStr (action_name a))
  /\ assoc "request_id" body = Some rid
  /\ forall k v, assoc k (action_args a) = Some v -> assoc k body = Some v.
Proof.
  split_and!; [now destruct a | now destruct a |].
  intros k v. generalize (action_args a). intros d.
  induction d as [|[k' v'] d IH]; [discriminate|].
  cbn [assoc app]. destruct (String.eqb k k'); auto.
Qed.

(** The session state that the actions rely on, after a successful load. *)
Lemma load_session w payload :
  next_payload w = Some (PDict payload) ->
  run load w = Ok tt ->
  exists rid uuid host port_text port,
    assoc "request_id" payload = Some rid
    /\ environ w !! "EXTENSION_UUID" = Some uuid
    /\ environ w !! "HOST" = Some host
    /\ environ w !! "PORT" = Some port_text
    /\ py_int port_text = Ok port
    /\ tls (exec load w) !! "request_id" = Some rid
    /\ tls (exec load w) !! "uuid" = Some (PStr uuid)
    /\ config (exec load w) = Some (host, port).
Proof.
  intros Hp H%load_run_Ok.
  apply load_Ok in H
      as (uuid & host & port_text & port & payload' & Hu & Hh & Hpt & Hint
          & Hp' & L & Hid & Hc & _).
  assert (payload' = payload) as -> by congruence.
  destruct (ld_request_id _ _ L) as (rid & Hrid & Hattr).
  exists rid, uuid, host, port_text, port. split_and!; auto.
Qed.

(** C4: after a successful [load], one call of any of the nine actions
    sends exactly one request, a POST to the response endpoint of this
    extension on the configured host and port, whose JSON body is made of
    the action's named arguments, a [method] member equal to the action's
    name and a [request_id] member equal to the request identifier of the
    loaded payload. *)
Theorem action_posts_once a w0 payload :
  next_payload w0 = Some (PDict payload) ->
  run load w0 = Ok tt ->
  let w := exec load w0 in
  exists rid uuid host port_text port,
    assoc "request_id" payload = Some rid
    /\ environ w0 !! "EXTENSION_UUID" = Some uuid
    /\ environ w0 !! "HOST" = Some host
    /\ environ w0 !! "PORT" = Some port_text
    /\ py_int port_text = Ok port
    /\ let body :=
         action_args a
         ++ [("method", PStr (action_name a)); ("request_id", rid)] in
       outbox (exec (call a) w)
       = outbox w ++ [post_of host port (PStr uuid) body]
       /\ assoc "method" body = Some (PStr (action_name a))
       /\ assoc "request_id" body = Some rid
       /\ forall k v, assoc k (action_args a) = Some v -> assoc k body = Some v.
Proof.
  intros Hp Hload w.
  destruct (load_session _ _ Hp Hload)
    as (rid & uuid & host & port_text & port & Hrid & Hu & Hh & Hpt & Hint
        & Hattr & Hid & Hc).
  exists rid, uuid, host, port_text, port. split_and!; auto.
  intros body. split; [|apply action_body_lookup].
  unfold exec. rewrite call_dump.
  rewrite (dump_run _ _ w rid (PStr uuid) host port Hattr Hid Hc
             (action_args_no_method a)).
  cbn [snd]. now rewrite action_body.
Qed.

Lemma action_posts_once_witness :
  outbox (exec (call (UpdateFile (PList [PStr "+x"]) (PList [])))
            (exec load (start [ok_reply payload_min; Reply 200 None])))
  = outbox (exec load (start [ok_reply payload_min; Reply 200 None]))
    ++ [post_of "localhost" 8080 (PStr "u-1")
          [("patch", PList [PStr "+x"]); ("matches", PList []);
           ("method", PStr "update_file"); ("request_id", PStr "r1")]].
Proof.
  destruct (action_posts_once (UpdateFile (PList [PStr "+x"]) (PList []))
              (start [ok_reply payload_min; Reply 200 None]) payload_min
              eq_refl eq_refl)
    as (rid & uuid & host & port_text & port & Hrid & Hu & Hh & Hpt & Hint
        & Hout & _).
  injection Hrid as <-. injection Hu as <-. injection Hh as <-.
  injection Hpt as <-. injection Hint as <-.
  exact Hout.
Defined.

(** C2 (as amended): after a successful [load], a call of any of the nine
    actions returns no value whatever the HTTP status of the host's answer,
    error statuses included: the response is not looked at.  The call
    raises, with ConnectionError, only when no answer comes. *)
Theorem action_ignores_status a w0 :
  run load w0 = Ok tt ->
  let w := exec load w0 in
  (forall status body rest,
      inbox w = Reply status body :: rest -> run (call a) w = Ok tt)
  /\ (inbox w = [] \/ (exists rest, inbox w = NoReply :: rest) ->
      run (call a) w = Raise ConnectionError
      /\ is_TransportError ConnectionError = true).
Proof.
  intros Hload w.
  pose proof (load_run_Ok _ Hload) as H.
  apply load_Ok in H as (? & ? & ? & ? & payload & _ & _ & _ & _ & Hp & _).
  destruct (load_session _ _ Hp Hload)
    as (rid & uuid & host & port_text & port & Hrid & Hu & _ & _ & _
        & Hattr & Hid & Hc).
  assert (run (call a) w
          = match inbox w with
            | Reply _ _ :: _ => Ok tt
            | _ => Raise ConnectionError
            end) as Hrun.
  { unfold run. rewrite call_dump.
    now rewrite (dump_run _ _ w rid (PStr uuid) host port Hattr Hid Hc
                   (action_args_no_method a)). }
  split.
  - intros status body rest Hin. now rewrite Hrun, Hin.
  - intros [Hin | [rest Hin]]; rewrite Hrun, Hin; auto.
Qed.

Lemma action_ignores_status_witness :
  run (call (Chat (PStr "hi")))
    (exec load (start [ok_reply payload_min; Reply 404 None])) = Ok tt
  /\ run (call (Chat (PStr "hi")))
       (exec load (start [ok_reply payload_min])) = Raise ConnectionError.
Proof.
  split.
  - exact (proj1 (action_ignores_status (Chat (PStr "hi"))
                    (start [ok_reply payload_min; Reply 404 None]) eq_refl)
             404 None [] eq_refl).
  - exact (proj1 (proj2 (action_ignores_status (Chat (PStr "hi"))
                           (start [ok_reply payload_min]) eq_refl)
                    (or_introl eq_refl))).
Defined.

(** C2, as stated, fails: the host answers the POST of [chat] with status
    500 and the call returns normally. *)
Lemma chat_returns_on_status_500 :
  is_error_status 500 = true
  /\ inbox (exec load (start [ok_reply payload_min; Reply 500 None]))
     = [Reply 500 None]
  /\ run (call (Chat (PStr "hi")))
       (exec load (start [ok_reply payload_min; Reply 500 None])) = Ok tt.
Proof. vm_compute. repeat split. Qed.

(** ** Cleanup and reloading *)

Lemma agree_intro w1 w2 :
  environ w1 = environ w2 -> config w1 = config w2 -> tls w1 = tls w2 ->
  inbox w1 = inbox w2 -> agree w1 w2.
Proof. unfold agree, same_inputs. auto. Qed.

Section Respects.
Variable R : world -> world -> Prop.

Lemma respects_ret {A} (a : A) : respects R (mret a).
Proof. intros w1 w2 H. now split. Qed.

Lemma respects_lift {A} (r : result A) : respects R (lift r).
Proof. intros w1 w2 H. now split. Qed.

Lemma respects_bind {A B} (m : M A) (f : A -> M B) :
  respects R m -> (forall a, respects R (f a)) -> respects R (m ≫= f).
Proof.
  intros Hm Hf w1 w2 H. unfold mbind, M_mbind, M_bind.
  destruct (Hm w1 w2 H) as [Hr Hw].
  destruct (m w1) as [[a1|e1] w1'], (m w2) as [[a2|e2] w2'];
    simpl in *; try discriminate.
  - injection Hr as ->. now apply Hf.
  - injection Hr as ->. now split.
Qed.
End Respects.

Lemma respects_environ_get k : respects same_inputs (environ_get k).
Proof.
  intros w1 w2 (He & Ht & Hi). unfold environ_get. rewrite He.
  destruct (environ w2 !! k); (split; [reflexivity|]);
    unfold same_inputs; cbn [snd]; auto.
Qed.

Lemma respects_setattr_inputs name v : respects same_inputs (setattr name v).
Proof.
  intros w1 w2 (He & Ht & Hi). split; [reflexivity|].
  unfold same_inputs, setattr, with_tls. cbn. split_and!; congruence.
Qed.

Lemma respects_setattr name v : respects agree (setattr name v).
Proof.
  intros w1 w2 ((He & Ht & Hi) & Hc). split; [reflexivity|].
  apply agree_intro; unfold setattr, with_tls; cbn; congruence.
Qed.

Lemma respects_getattr name : respects agree (getattr name).
Proof.
  intros w1 w2 ((He & Ht & Hi) & Hc). unfold getattr. rewrite Ht.
  destruct (tls w2 !! name); (split; [reflexivity|]);
    now apply agree_intro.
Qed.

Lemma respects_config_host : respects agree config_host.
Proof.
  intros w1 w2 ((He & Ht & Hi) & Hc). unfold config_host. rewrite Hc.
  destruct (config w2) as [[h p]|] eqn:E; (split; [reflexivity|]);
    apply agree_intro; cbn [snd]; congruence.
Qed.

Lemma respects_config_port : respects agree config_port.
Proof.
  intros w1 w2 ((He & Ht & Hi) & Hc). unfold config_port. rewrite Hc.
  destruct (config w2) as [[h p]|] eqn:E; (split; [reflexivity|]);
    apply agree_intro; cbn [snd]; congruence.
Qed.

Lemma respects_http r : respects agree (http r).
Proof.
  intros w1 w2 ((He & Ht & Hi) & Hc). unfold http. rewrite Hi.
  destruct (inbox w2) as [|[|status body] rest];
    (split; [reflexivity|]); apply agree_intro;
    unfold with_wire; cbn; congruence.
Qed.

Ltac respects_tac :=
  repeat first
    [ apply respects_bind; [|intros ?]
    | apply respects_lift
    | apply respects_setattr
    | apply respects_getattr
    | apply respects_config_host
    | apply respects_config_port
    | apply respects_http
    | apply respects_ret
    | match goal with
      | |- respects _ (match ?x with _ => _ end) => destruct x
      end ].

Lemma respects_load_data : respects agree _load_data.
Proof. unfold _load_data. respects_tac. Qed.

Lemma respects_load_context kwargs : respects agree (load_context kwargs).
Proof. unfold load_context. respects_tac. Qed.

(** From [configure] on, [load] only depends on what the two worlds share
    even when their configured targets differ. *)
Lemma respects_configure_then {A} host port (m : M A) :
  respects agree m ->
  respects same_inputs (configure host port ≫= fun _ => m).
Proof.
  intros Hm w1 w2 (He & Ht & Hi).
  rewrite !configure_step.
  destruct (Hm (with_config (Some (host, port)) w1)
               (with_config (Some (host, port)) w2)) as [Hr [Hs _]].
  - apply agree_intro; unfold with_config; cbn; congruence.
  - now split.
Qed.

(** [load] reads the environment, the replies of the host and nothing
    else: the configured target is overwritten before it is read, the
    thread-local attributes are assigned before they are read. *)
Lemma load_same_inputs : respects same_inputs load.
Proof.
  unfold load.
  apply respects_bind; [apply respects_environ_get | intros uuid].
  apply respects_bind; [apply respects_setattr_inputs | intros _].
  apply respects_bind; [apply respects_environ_get | intros host].
  apply respects_bind; [apply respects_environ_get | intros port_text].
  apply respects_bind; [apply respects_lift | intros port].
  apply respects_configure_then.
  apply respects_bind; [apply respects_load_data | intros kwargs].
  apply respects_load_context.
Qed.

Lemma cleanup_pristine w : same_inputs (exec cleanup w) (pristine (exec cleanup w)).
Proof. unfold same_inputs. now split_and!. Qed.

(** C6: whatever a thread has loaded before (here: the world left by a
    first [load], successful or not), after [cleanup()] a second [load()]
    behaves as on a thread that has never loaded anything, given the same
    environment and the same replies of the host: same outcome, same
    thread-local store.  The context therefore holds what [load] makes of
    the second payload and nothing else; in particular, when the second
    payload has no [selection], [get_selection()] returns None. *)
Theorem reload_reflects_second_payload w0 :
  let w := exec cleanup (exec load w0) in
  run load w = run load (pristine w)
  /\ tls (exec load w) = tls (exec load (pristine w))
  /\ forall payload,
       next_payload w = Some (PDict payload) ->
       run load w = Ok tt ->
       loaded payload (tls (exec load w))
       /\ (assoc "selection" payload = None ->
           run get_selection (exec load w) = Ok PNone).
Proof.
  intros w.
  destruct (load_same_inputs w (pristine w) (cleanup_pristine _))
    as [Hr (_ & Ht & _)].
  split_and!; [exact Hr | exact Ht |].
  intros payload Hp Hload.
  pose proof (load_loaded _ _ Hp Hload) as L.
  split; [exact L|].
  intros E. apply getattr_value. now rewrite (ld_selection _ _ L), E.
Qed.

Lemma reload_reflects_second_payload_witness :
  run get_selection (exec load (start [ok_reply payload_ab; ok_reply payload_min]))
  = Ok (PStr "x = 1")
  /\ run get_selection
       (exec load
          (exec cleanup
             (exec load (start [ok_reply payload_ab; ok_reply payload_min]))))
     = Ok PNone.
Proof.
  split; [reflexivity|].
  exact (proj2 (proj2 (proj2 (reload_reflects_second_payload
                                (start [ok_reply payload_ab; ok_reply payload_min])))
                  payload_min eq_refl eq_refl)
           eq_refl).
Defined.

(** C8: [cleanup()] never raises, with or without a context on the
    thread; it empties the thread-local store, so that every attribute of
    the context is gone and reading one raises AttributeError; calling it
    again changes nothing, and on a thread without context it changes
    nothing at all.  The rest of the world is left as it was. *)
Theorem cleanup_idempotent w :
  run cleanup w = Ok tt
  /\ tls (exec cleanup w) = ∅
  /\ (forall name, run (getattr name) (exec cleanup w)
                   = Raise (AttributeError name))
  /\ run cleanup (exec cleanup w) = Ok tt
  /\ exec cleanup (exec cleanup w) = exec cleanup w
  /\ run cleanup (pristine w) = Ok tt
  /\ exec cleanup (pristine w) = pristine w
  /\ environ (exec cleanup w) = environ w
  /\ config (exec cleanup w) = config w
  /\ inbox (exec cleanup w) = inbox w
  /\ outbox (exec cleanup w) = outbox w.
Proof.
  split_and!; reflexivity.
Qed.

(** * Further properties of the code *)

(** ** Frames: what a statement leaves alone *)

Section Stable.
Variable I : world -> world -> Prop.
Hypothesis I_refl : forall w, I w w.
Hypothesis I_trans : forall w1 w2 w3, I w1 w2 -> I w2 w3 -> I w1 w3.

Lemma stable_ret {A} (a : A) : stable I (mret a).
Proof. intros w. apply I_refl. Qed.

Lemma stable_lift {A} (r : result A) : stable I (lift r).
Proof. intros w. apply I_refl. Qed.

Lemma stable_getattr name : stable I (getattr name).
Proof. intros w. unfold getattr. destruct (tls w !! name); apply I_refl. Qed.

Lemma stable_config_host : stable I config_host.
Proof.
  intros w. unfold config_host. destruct (config w) as [[h p]|]; apply I_refl.
Qed.

Lemma stable_config_port : stable I config_port.
Proof.
  intros w. unfold config_port. destruct (config w) as [[h p]|]; apply I_refl.
Qed.

Lemma stable_bind {A B} (m : M A) (f : A -> M B) :
  stable I m -> (forall a, stable I (f a)) -> stable I (m ≫= f).
Proof.
  intros Hm Hf w. unfold mbind, M_mbind, M_bind.
  specialize (Hm w). destruct (m w) as [[a|e] w1]; cbn [snd] in *.
  - eapply I_trans; [exact Hm | apply Hf].
  - exact Hm.
Qed.

Lemma stable_bind_Raise {A B} (e : exn) (f : A -> M B) :
  stable I (lift (Raise e) ≫= f).
Proof. intros w. apply I_refl. Qed.

Lemma stable_M_map {A B} (f : A -> M B) (l : list A) :
  (forall a, stable I (f a)) -> stable I (M_map f l).
Proof.
  intros Hf. induction l as [|x l IH]; cbn [M_map].
  - apply stable_ret.
  - apply stable_bind; [apply Hf | intros y].
    apply stable_bind; [exact IH | intros ys]. apply stable_ret.
Qed.
End Stable.

Lemma only_tls_refl w : only_tls w w.
Proof. unfold only_tls. auto. Qed.

Lemma only_tls_trans w1 w2 w3 : only_tls w1 w2 -> only_tls w2 w3 -> only_tls w1 w3.
Proof. unfold only_tls. intros (? & ? & ? & ?) (? & ? & ? & ?). split_and!; congruence. Qed.

Lemma only_wire_refl w : only_wire w w.
Proof. unfold only_wire. auto. Qed.

Lemma only_wire_trans w1 w2 w3 :
  only_wire w1 w2 -> only_wire w2 w3 -> only_wire w1 w3.
Proof. unfold only_wire. intros (? & ? & ?) (? & ? & ?). split_and!; congruence. Qed.

Lemma same_attr_refl k w : same_attr k w w.
Proof. reflexivity. Qed.

Lemma same_attr_trans k w1 w2 w3 :
  same_attr k w1 w2 -> same_attr k w2 w3 -> same_attr k w1 w3.
Proof. unfold same_attr. congruence. Qed.

Lemma stable_setattr_only_tls name v : stable only_tls (setattr name v).
Proof. intros w. unfold only_tls. now split_and!. Qed.

Lemma stable_setattr_other k name v :
  name <> k -> stable (same_attr k) (setattr name v).
Proof.
  intros Hne w. unfold same_attr, setattr, with_tls. cbn.
  now apply lookup_insert_ne.
Qed.

Lemma stable_http_only_wire r : stable only_wire (http r).
Proof.
  intros w. unfold http, only_wire.
  destruct (inbox w) as [|[|status body] rest]; now split_and!.
Qed.

Ltac stable_tac refl trans :=
  repeat first
    [ apply (stable_bind_Raise _ refl)
    | apply (stable_bind _ trans); [|intros ?]
    | apply (stable_lift _ refl)
    | apply (stable_getattr _ refl)
    | apply (stable_config_host _ refl)
    | apply (stable_config_port _ refl)
    | apply (stable_ret _ refl)
    | apply stable_setattr_only_tls
    | apply stable_setattr_other; discriminate
    | apply stable_http_only_wire
    | apply (stable_M_map _ refl trans); intros ?
    | match goal with
      | |- stable _ (match ?x with _ => _ end) => destruct x
      | |- stable _ (if ?x then _ else _) => destruct x
      end ].

Lemma load_context_only_tls kwargs : stable only_tls (load_context kwargs).
Proof.
  unfold load_context. stable_tac only_tls_refl only_tls_trans.
Qed.

Lemma dump_only_wire method kwargs : stable only_wire (_dump method kwargs).
Proof. unfold _dump. stable_tac only_wire_refl only_wire_trans. Qed.

Lemma read_unchanged a : stable eq (read a).
Proof.
  destruct a; cbn [read];
    unfold get_repo_files, get_repo_path, get_current_file, get_selection,
      get_clip_board, get_cursor, get_chat_history, get_current_terminal,
      get_terminals, get_code_apply_change, get_context_files, get_prompt,
      get_api_key, get_api_keys, get_setting, get_ui_action;
    stable_tac (@eq_refl world) (@eq_trans world).
Qed.

(** ** How [load] runs *)

Lemma load_data_run w host port uuid :
  config w = Some (host, port) ->
  tls w !! "uuid" = Some uuid ->
  _load_data w
  = (fetched (head (inbox w)),
     with_wire (tail (inbox w)) (outbox w ++ [get_of host port uuid]) w).
Proof.
  intros Hc Hu. unfold _load_data.
  rewrite (bind_step _ _ _ _ _ (config_host_run _ _ _ Hc)).
  rewrite (bind_step _ _ _ _ _ (config_port_run _ _ _ Hc)).
  rewrite (bind_step _ _ _ _ _ (getattr_run _ _ _ Hu)).
  unfold mbind at 1, M_mbind, M_bind, http. fold (get_of host port uuid).
  destruct (inbox w) as [|[|status body] rest]; try reflexivity.
  cbn [head tail fetched]. unfold mbind, M_mbind, M_bind, lift, result_mbind,
    result_bind.
  destruct (raise_for_status status); [|reflexivity].
  destruct (response_json body); reflexivity.
Qed.

(** With a complete environment, [load] sends its GET, and goes on with
    the payload when the reply carries one. *)
Lemma load_run w uuid host port :
  environ_ok w uuid host port ->
  let w3 := with_wire (tail (inbox w))
              (outbox w ++ [get_of host port (PStr uuid)])
              (with_config (Some (host, port))
                 (with_tls (insert "uuid" (PStr uuid)) w)) in
  load w = match fetched (head (inbox w)) with
           | Ok kwargs => load_context kwargs w3
           | Raise e => (Raise e, w3)
           end.
Proof.
  intros (Hu & Hh & port_text & Hp & Hint) w3. unfold load.
  rewrite (bind_step _ _ _ _ _ (environ_get_run _ _ _ Hu)), setattr_step.
  rewrite (bind_step (environ_get "HOST") _ _ host _
             (environ_get_run "HOST" (with_tls _ w) _ Hh)).
  rewrite (bind_step (environ_get "PORT") _ _ port_text _
             (environ_get_run "PORT" (with_tls _ w) _ Hp)).
  rewrite Hint, lift_step, configure_step.
  unfold mbind, M_mbind, M_bind.
  rewrite (load_data_run
             (with_config (Some (host, port))
                (with_tls (insert "uuid" (PStr uuid)) w))
             host port (PStr uuid) eq_refl (lookup_insert_eq _ _ _)).
  reflexivity.
Qed.

Lemma load_context_keeps_uuid kwargs :
  stable (same_attr "uuid") (load_context kwargs).
Proof.
  unfold load_context.
  stable_tac (same_attr_refl "uuid") (same_attr_trans "uuid").
Qed.

(** X1: with a complete environment, every call of [load] sends exactly
    one request, the GET of this extension's data on the host and port of
    the environment, and takes one reply, whatever the reply is and whether
    [load] returns or raises; the shared target is configured and [uuid]
    stored. *)
Theorem load_sends_one_get w uuid host port :
  environ_ok w uuid host port ->
  outbox (exec load w) = outbox w ++ [get_of host port (PStr uuid)]
  /\ inbox (exec load w) = tail (inbox w)
  /\ config (exec load w) = Some (host, port)
  /\ tls (exec load w) !! "uuid" = Some (PStr uuid)
  /\ environ (exec load w) = environ w.
Proof.
  intros Henv. unfold exec. rewrite (load_run _ _ _ _ Henv).
  destruct (fetched (head (inbox w))) as [kwargs|e].
  - destruct (load_context_only_tls kwargs
                (with_wire (tail (inbox w))
                   (outbox w ++ [get_of host port (PStr uuid)])
                   (with_config (Some (host, port))
                      (with_tls (insert "uuid" (PStr uuid)) w))))
      as (He & Hc & Hi & Ho).
    split_and!; [exact Ho | exact Hi | exact Hc | | exact He].
    rewrite (load_context_keeps_uuid kwargs _). apply lookup_insert_eq.
  - cbn. split_and!; try reflexivity. apply lookup_insert_eq.
Qed.

Lemma load_sends_one_get_witness :
  outbox (exec load (start [Reply 503 None]))
  = [get_of "localhost" 8080 (PStr "u-1")]
  /\ inbox (exec load (start [Reply 503 None])) = [].
Proof.
  destruct (load_sends_one_get (start [Reply 503 None]) "u-1" "localhost" 8080)
    as (Ho & Hi & _).
  - split; [reflexivity|]. split; [reflexivity|].
    exists "8080". split; reflexivity.
  - split; [exact Ho | exact Hi].
Defined.

Lemma load_environment_cases w :
  (environ w !! "EXTENSION_UUID" = None ->
   run load w = Raise (KeyError "EXTENSION_UUID") /\ exec load w = w)
  /\ (forall uuid, environ w !! "EXTENSION_UUID" = Some uuid ->
      let w1 := with_tls (insert "uuid" (PStr uuid)) w in
      (environ w !! "HOST" = None ->
       run load w = Raise (KeyError "HOST") /\ exec load w = w1)
      /\ (forall host, environ w !! "HOST" = Some host ->
          (environ w !! "PORT" = None ->
           run load w = Raise (KeyError "PORT") /\ exec load w = w1)
          /\ (forall port_text e,
                environ w !! "PORT" = Some port_text ->
                py_int port_text = Raise e ->
                run load w = Raise e /\ exec load w = w1))).
Proof.
  unfold run, exec, load. split.
  - intros Hu. unfold mbind, M_mbind, M_bind, environ_get. now rewrite Hu.
  - intros uuid Hu.
    rewrite (bind_step _ _ _ _ _ (environ_get_run _ _ _ Hu)), setattr_step.
    set (w1 := with_tls (insert "uuid" (PStr uuid)) w). split.
    + intros Hh. unfold mbind, M_mbind, M_bind, environ_get.
      change (environ w1) with (environ w). now rewrite Hh.
    + intros host Hh.
      rewrite (bind_step (environ_get "HOST") _ _ host _
                 (environ_get_run "HOST" w1 _ Hh)).
      split.
      * intros Hp. unfold mbind, M_mbind, M_bind, environ_get.
        change (environ w1) with (environ w). now rewrite Hp.
      * intros port_text e Hp Hint.
        rewrite (bind_step (environ_get "PORT") _ _ port_text _
                   (environ_get_run "PORT" w1 _ Hp)).
        rewrite Hint. now split.
Qed.

(** X2: with an incomplete environment [load] raises before it talks to
    the host: KeyError for the first of EXTENSION_UUID, HOST and PORT that
    is missing, the error of [int] for a PORT that is not a number.  No
    request is sent and the shared target is not configured; [uuid] is
    already stored when the failure comes after it. *)
Theorem load_incomplete_environment w :
  (environ w !! "EXTENSION_UUID" = None ->
   run load w = Raise (KeyError "EXTENSION_UUID") /\ exec load w = w)
  /\ (forall uuid, environ w !! "EXTENSION_UUID" = Some uuid ->
      let w1 := with_tls (insert "uuid" (PStr uuid)) w in
      (environ w !! "HOST" = None ->
       run load w = Raise (KeyError "HOST") /\ exec load w = w1)
      /\ (forall host, environ w !! "HOST" = Some host ->
          (environ w !! "PORT" = None ->
           run load w = Raise (KeyError "PORT") /\ exec load w = w1)
          /\ (forall port_text e,
                environ w !! "PORT" = Some port_text ->
                py_int port_text = Raise e ->
                run load w = Raise e /\ exec load w = w1))).
Proof. exact (load_environment_cases w). Qed.

Lemma load_incomplete_environment_witness :
  run load {| environ := {[ "EXTENSION_UUID" := "u-1"; "HOST" := "h";
                            "PORT" := "80a" ]};
              config := None; tls := ∅; inbox := []; outbox := [] |}
  = Raise ValueError
  /\ run load {| environ := {[ "HOST" := "h"; "PORT" := "80" ]};
                config := None; tls := ∅; inbox := []; outbox := [] |}
     = Raise (KeyError "EXTENSION_UUID").
Proof.
  pose proof (load_incomplete_environment
                {| environ := {[ "EXTENSION_UUID" := "u-1"; "HOST" := "h";
                                 "PORT" := "80a" ]};
                   config := None; tls := ∅; inbox := []; outbox := [] |})
    as [_ Hport].
  pose proof (load_incomplete_environment
                {| environ := {[ "HOST" := "h"; "PORT" := "80" ]};
                   config := None; tls := ∅; inbox := []; outbox := [] |})
    as [Huuid _].
  split.
  - exact (proj1 (proj2 (proj2 (Hport "u-1" eq_refl) "h" eq_refl)
                    "80a" ValueError eq_refl eq_refl)).
  - exact (proj1 (Huuid eq_refl)).
Defined.

(** X3: with a complete environment, [load] raises and constructs nothing
    of the context (the thread-local store only gains [uuid]) when the
    fetch gives no usable payload: ConnectionError without a reply,
    JSONDecodeError for a body that is not JSON, TypeError for a body that
    is not an object, KeyError('data') for an object without [data],
    TypeError for a [data] that is not an object. *)
Theorem load_fetch_failures w uuid host port :
  environ_ok w uuid host port ->
  let fails e :=
    run load w = Raise e
    /\ tls (exec load w) = <["uuid" := PStr uuid]> (tls w) in
  (head (inbox w) = None \/ head (inbox w) = Some NoReply ->
   fails ConnectionError)
  /\ (forall status,
        head (inbox w) = Some (Reply status None) ->
        is_error_status status = false -> fails JSONDecodeError)
  /\ (forall status body,
        head (inbox w) = Some (Reply status (Some body)) ->
        is_error_status status = false ->
        (forall d, body <> PDict d) -> fails TypeError)
  /\ (forall status d,
        head (inbox w) = Some (Reply status (Some (PDict d))) ->
        is_error_status status = false ->
        assoc "data" d = None -> fails (KeyError "data"))
  /\ (forall status d data,
        head (inbox w) = Some (Reply status (Some (PDict d))) ->
        is_error_status status = false ->
        assoc "data" d = Some data ->
        (forall payload, data <> PDict payload) -> fails TypeError).
Proof.
  intros Henv fails. subst fails. cbv beta.
  unfold run, exec. rewrite (load_run _ _ _ _ Henv).
  split_and!.
  - intros [-> | ->]; now split.
  - intros status -> Hst. unfold fetched, raise_for_status. rewrite Hst.
    now split.
  - intros status body -> Hst Hnd. unfold fetched, raise_for_status.
    rewrite Hst. cbn.
    destruct body; try (now split). now destruct (Hnd d).
  - intros status d -> Hst Hd. unfold fetched, raise_for_status. rewrite Hst.
    cbn. rewrite Hd. now split.
  - intros status d data -> Hst Hd Hnd. unfold fetched, raise_for_status.
    rewrite Hst. cbn. rewrite Hd.
    destruct data; try (now split). now destruct (Hnd d0).
Qed.

Lemma load_fetch_failures_witness :
  run load (start []) = Raise ConnectionError
  /\ run load (start [Reply 200 None]) = Raise JSONDecodeError
  /\ run load (start [Reply 200 (Some (PDict [("error", PStr "x")]))])
     = Raise (KeyError "data")
  /\ run load (start [Reply 200 (Some (PDict [("data", PList [])]))])
     = Raise TypeError.
Proof.
  assert (forall l, environ_ok (start l) "u-1" "localhost" 8080) as Henv.
  { intros l. split; [reflexivity|]. split; [reflexivity|].
    exists "8080". split; reflexivity. }
  split_and!.
  - exact (proj1 (proj1 (load_fetch_failures _ _ _ _ (Henv []))
                    (or_introl eq_refl))).
  - exact (proj1 (proj1 (proj2 (load_fetch_failures _ _ _ _
                                  (Henv [Reply 200 None]))) 200 eq_refl eq_refl)).
  - exact (proj1 (proj1 (proj2 (proj2 (proj2
                      (load_fetch_failures _ _ _ _
                         (Henv [Reply 200 (Some (PDict [("error", PStr "x")]))])))))
                    200 [("error", PStr "x")] eq_refl eq_refl eq_refl)).
  - refine (proj1 (proj2 (proj2 (proj2 (proj2
                      (load_fetch_failures _ _ _ _
                         (Henv [Reply 200 (Some (PDict [("data", PList [])]))])))))
                     200 [("data", PList [])] (PList []) eq_refl eq_refl eq_refl
                     _)).
    discriminate.
Defined.

(** ** A load that fails half-way *)

Lemma fetched_payload w status body payload :
  head (inbox w) = Some (Reply status (Some body)) ->
  is_error_status status = false ->
  py_getitem body "data" = Ok payload ->
  fetched (head (inbox w)) = Ok payload.
Proof.
  intros -> Hst Hd. unfold fetched, raise_for_status. rewrite Hst. exact Hd.
Qed.

(** X4: [load] assigns the attributes one by one and takes nothing back
    when it fails: for a payload with a [request_id] but without [cursor],
    [load] raises, the new request identifier is already in the store, and
    the cursor of the previous session, if any, is still there. *)
Theorem load_failure_is_not_rolled_back
        w uuid host port status body payload rid :
  environ_ok w uuid host port ->
  head (inbox w) = Some (Reply status (Some body)) ->
  is_error_status status = false ->
  py_getitem body "data" = Ok (PDict payload) ->
  assoc "request_id" payload = Some rid ->
  assoc "cursor" payload = None ->
  (exists e, run load w = Raise e)
  /\ tls (exec load w) !! "request_id" = Some rid
  /\ tls (exec load w) !! "cursor" = tls w !! "cursor".
Proof.
  intros Henv Hin Hst Hdata Hrid Hcur.
  assert (exists e, run load w = Raise e) as Hfail.
  { destruct (result_cases (run load w)) as [Hok | He]; [|exact He].
    apply load_run_Ok, load_Ok in Hok
        as (? & ? & ? & ? & p & _ & _ & _ & _ & Hp & L & _).
    unfold next_payload in Hp. destruct (inbox w) as [|r rest]; [discriminate|].
    cbn [head] in Hin. injection Hin as ->. rewrite Hdata in Hp.
    injection Hp as <-.
    destruct (ld_cursor _ _ L) as (c & Hc & _). congruence. }
  split; [exact Hfail|].
  unfold exec. rewrite (load_run _ _ _ _ Henv).
  rewrite (fetched_payload _ _ _ _ Hin Hst Hdata).
  set (w3 := with_wire _ _ _).
  assert (py_getitem (PDict payload) "cursor" = Raise (KeyError "cursor")) as Ec
      by (cbn; now rewrite Hcur).
  assert (py_getitem (PDict payload) "request_id" = Ok rid) as Er
      by (cbn; now rewrite Hrid).
  split.
  - unfold load_context. rewrite Er, lift_step, setattr_step.
    match goal with
    | |- tls (snd (?m ?w4)) !! _ = _ =>
        assert (stable (same_attr "request_id") m) as Hs
          by stable_tac (same_attr_refl "request_id")
                        (same_attr_trans "request_id");
        rewrite (Hs w4)
    end.
    apply lookup_insert_eq.
  - assert (stable (same_attr "cursor") (load_context (PDict payload))) as Hs.
    { unfold load_context. rewrite Ec.
      stable_tac (same_attr_refl "cursor") (same_attr_trans "cursor"). }
    rewrite (Hs w3). subst w3. unfold with_wire, with_config, with_tls. cbn.
    now apply lookup_insert_ne.
Qed.

Lemma load_failure_is_not_rolled_back_witness :
  (exists e,
      run load (exec load (start [ok_reply payload_full;
                                  ok_reply (without "cursor" payload_min)]))
      = Raise e)
  /\ tls (exec load (exec load (start [ok_reply payload_full;
                                       ok_reply (without "cursor" payload_min)])))
     !! "request_id" = Some (PStr "r1")
  /\ tls (exec load (exec load (start [ok_reply payload_full;
                                       ok_reply (without "cursor" payload_min)])))
     !! "cursor" = Some (Cursor [("row", PInt 3); ("column", PInt 0)]).
Proof.
  refine (load_failure_is_not_rolled_back
            (exec load (start [ok_reply payload_full;
                               ok_reply (without "cursor" payload_min)]))
            "u-1" "localhost" 8080 200
            (PDict [("data", PDict (without "cursor" payload_min))])
            (without "cursor" payload_min) (PStr "r1")
            _ eq_refl eq_refl eq_refl eq_refl eq_refl).
  split; [reflexivity|]. split; [reflexivity|].
  exists "8080". split; reflexivity.
Defined.

(** ** Accessors and actions as a whole *)

(** X5: the sixteen accessors only read: whatever they return or raise,
    they leave the thread-local store, the configuration and the wire as
    they were. *)
Theorem accessors_only_read a w : exec (read a) w = w.
Proof. symmetry. apply (read_unchanged a w). Qed.

Lemma getattr_missing name w :
  tls w !! name = None -> getattr name w = (Raise (AttributeError name), w).
Proof. unfold getattr. now intros ->. Qed.

(** X6: on a thread without context (before [load], after [cleanup])
    every accessor raises AttributeError, and so does every action, before
    anything is sent: the world is left as it was. *)
Theorem without_context_everything_raises w :
  tls w = ∅ ->
  (forall a, exists name, run (read a) w = Raise (AttributeError name))
  /\ (forall a, run (call a) w = Raise (AttributeError "request_id")
                /\ exec (call a) w = w).
Proof.
  intros He.
  assert (forall name, getattr name w = (Raise (AttributeError name), w)) as Hg
      by (intros name; apply getattr_missing; rewrite He; apply lookup_empty).
  split.
  - intros a. unfold run.
    destruct a; cbn [read];
      unfold get_repo_files, get_repo_path, get_current_file, get_selection,
        get_clip_board, get_cursor, get_chat_history, get_current_terminal,
        get_terminals, get_code_apply_change, get_context_files, get_prompt,
        get_api_key, get_api_keys, get_setting, get_ui_action;
      try rewrite (bind_Raise _ _ _ _ _ (Hg _)); try rewrite Hg; eauto.
  - intros a. unfold run, exec. rewrite call_dump. unfold _dump.
    rewrite action_args_no_method.
    replace (bool_decide (is_Some (@None pyval))) with false
      by (symmetry; apply bool_decide_eq_false; intros [? [=]]).
    rewrite lift_step, (bind_Raise _ _ _ _ _ (Hg _)). now split.
Qed.

Lemma without_context_everything_raises_witness :
  (exists name,
      run (read GetTerminals)
        (exec cleanup (exec load (start [ok_reply payload_ab])))
      = Raise (AttributeError name))
  /\ run (call EndChat) (exec cleanup (exec load (start [ok_reply payload_ab])))
     = Raise (AttributeError "request_id").
Proof.
  pose proof (without_context_everything_raises
                (exec cleanup (exec load (start [ok_reply payload_ab])))
                eq_refl) as [Hr Hc].
  split; [exact (Hr GetTerminals) | exact (proj1 (Hc EndChat))].
Defined.

(** X7: an action, whether it returns or raises, changes nothing of the
    session: the thread-local store (with its request identifier), the
    configured target and the environment are as before, so that the next
    action is sent for the same session. *)
Theorem action_keeps_session a w :
  tls (exec (call a) w) = tls w
  /\ config (exec (call a) w) = config w
  /\ environ (exec (call a) w) = environ w.
Proof.
  unfold exec. rewrite call_dump.
  destruct (dump_only_wire (action_name a) (action_args a) w) as (He & Hc & Ht).
  auto.
Qed.

Lemma answers_cons s b l : answers ((s, b) :: l) = Reply s b :: answers l.
Proof. reflexivity. Qed.

Lemma actions_run rid uuid host port rest acts :
  forall w ans,
    tls w !! "request_id" = Some rid ->
    tls w !! "uuid" = Some uuid ->
    config w = Some (host, port) ->
    inbox w = answers ans ++ rest ->
    length ans = length acts ->
    M_map call acts w
    = (Ok (map (fun _ => tt) acts),
       with_wire rest
         (outbox w ++ map (fun a => post_of host port uuid (body_of rid a)) acts)
         w).
Proof.
  induction acts as [|a acts IH]; intros w ans Hr Hu Hc Hin Hlen.
  - destruct ans; [|discriminate]. cbn in *. rewrite app_nil_r.
    unfold mret, M_mret, M_ret. f_equal. destruct w. unfold with_wire. cbn in *.
    now subst.
  - destruct ans as [|[s b] ans]; [discriminate|].
    injection Hlen as Hlen. rewrite answers_cons in Hin. cbn [app] in Hin.
    cbn [M_map map].
    pose proof (dump_run (action_name a) (action_args a) w rid uuid host port
                  Hr Hu Hc (action_args_no_method a)) as Hd.
    rewrite Hin, action_body in Hd. cbn [tail] in Hd. fold (body_of rid a) in Hd.
    rewrite call_dump. rewrite (bind_step _ _ _ _ _ Hd).
    rewrite (bind_step _ _ _ _ _
               (IH (with_wire (answers ans ++ rest)
                      (outbox w ++ [post_of host port uuid (body_of rid a)]) w)
                   ans Hr Hu Hc eq_refl Hlen)).
    unfold mret, M_mret, M_ret, with_wire. cbn. now rewrite <- app_assoc.
Qed.

(** X8: after a successful [load], a series of actions answered by the
    host (with any statuses) returns normally and sends one POST per
    action, in the order of the calls, every one tagged with the request
    identifier of the loaded payload; each action takes one reply. *)
Theorem actions_in_sequence acts w0 payload ans rest :
  next_payload w0 = Some (PDict payload) ->
  run load w0 = Ok tt ->
  let w := exec load w0 in
  inbox w = answers ans ++ rest ->
  length ans = length acts ->
  exists rid uuid host port,
    assoc "request_id" payload = Some rid
    /\ environ_ok w0 uuid host port
    /\ run (M_map call acts) w = Ok (map (fun _ => tt) acts)
    /\ outbox (exec (M_map call acts) w)
       = outbox w
         ++ map (fun a => post_of host port (PStr uuid) (body_of rid a)) acts
    /\ inbox (exec (M_map call acts) w) = rest.
Proof.
  intros Hp Hload w Hin Hlen.
  destruct (load_session _ _ Hp Hload)
    as (rid & uuid & host & port_text & port & Hrid & Hu & Hh & Hpt & Hint
        & Hattr & Hid & Hc).
  exists rid, uuid, host, port.
  split; [exact Hrid|]. split; [unfold environ_ok; eauto|].
  unfold run, exec.
  rewrite (actions_run rid (PStr uuid) host port rest acts w ans
             Hattr Hid Hc Hin Hlen).
  now split_and!.
Qed.

Lemma actions_in_sequence_witness :
  run (M_map call [StartChat; Chat (PStr "hi"); EndChat])
    (exec load (start (ok_reply payload_min
                       :: answers [(200, None); (500, None); (204, None)])))
  = Ok [tt; tt; tt].
Proof.
  destruct (actions_in_sequence [StartChat; Chat (PStr "hi"); EndChat]
              (start (ok_reply payload_min
                      :: answers [(200, None); (500, None); (204, None)]))
              payload_min [(200, None); (500, None); (204, None)] []
              eq_refl eq_refl eq_refl eq_refl)
    as (rid & uuid & host & port & _ & _ & Hrun & _).
  exact Hrun.
Defined.

(** ** The remaining accessors *)

Lemma loaded_attr w payload k v :
  next_payload w = Some (PDict payload) ->
  run load w = Ok tt ->
  (forall t, loaded payload t -> t !! k = Some v) ->
  getattr k (exec load w) = (Ok v, exec load w).
Proof.
  intros Hp Hload H. apply getattr_run, H. now apply load_loaded.
Qed.

(** X9: after a successful [load] of a payload whose [api_keys] is an
    object, [get_api_key(p)] returns None for a provider that is not a key
    of it, the APIKey built from the stored record for one that is, and
    raises TypeError when what is stored for the provider is not an
    object. *)
Theorem get_api_key_by_provider w payload keys provider :
  next_payload w = Some (PDict payload) ->
  assoc "api_keys" payload = Some (PDict keys) ->
  run load w = Ok tt ->
  (assoc provider keys = None ->
   run (get_api_key provider) (exec load w) = Ok PNone)
  /\ (forall record, assoc provider keys = Some (PDict record) ->
      run (get_api_key provider) (exec load w) = Ok (APIKey record))
  /\ (forall v, assoc provider keys = Some v -> (forall r, v <> PDict r) ->
      run (get_api_key provider) (exec load w) = Raise TypeError).
Proof.
  intros Hp Hk Hload.
  assert (getattr "api_keys" (exec load w) = (Ok (PDict keys), exec load w))
    as Hg.
  { apply (loaded_attr _ payload); auto.
    intros t L. now rewrite (ld_api_keys _ _ L), Hk. }
  unfold run, get_api_key.
  rewrite (bind_step _ _ _ _ _ Hg). cbn [py_contains]. rewrite lift_step.
  split_and!.
  - intros ->. rewrite bool_decide_eq_false_2; [reflexivity | intros [? [=]]].
  - intros record E. rewrite E, bool_decide_eq_true_2 by eauto.
    rewrite (bind_step _ _ _ _ _ Hg). cbn [py_getitem]. now rewrite E.
  - intros v E Hnd. rewrite E, bool_decide_eq_true_2 by eauto.
    rewrite (bind_step _ _ _ _ _ Hg). cbn [py_getitem]. rewrite E, lift_step.
    destruct v; try reflexivity. now destruct (Hnd d).
Qed.

Lemma get_api_key_by_provider_witness :
  run (get_api_key "openrouter") (exec load (start [ok_reply payload_full]))
  = Ok (APIKey [("key", PStr "k1")])
  /\ run (get_api_key "deepinfra") (exec load (start [ok_reply payload_full]))
     = Ok PNone.
Proof.
  pose proof (get_api_key_by_provider (start [ok_reply payload_full])
                payload_full [("openrouter", PDict [("key", PStr "k1")])]
                "openrouter" eq_refl eq_refl eq_refl) as (_ & H1 & _).
  pose proof (get_api_key_by_provider (start [ok_reply payload_full])
                payload_full [("openrouter", PDict [("key", PStr "k1")])]
                "deepinfra" eq_refl eq_refl eq_refl) as (H2 & _).
  split; [exact (H1 _ eq_refl) | exact (H2 eq_refl)].
Defined.

Lemma api_keys_map (records : list (string * dict)) :
  result_map (fun kv : string * pyval => kw ← py_kwargs (snd kv); mret (APIKey kw))
    (map (fun kr => (fst kr, PDict (snd kr))) records)
  = Ok (map (fun kr => APIKey (snd kr)) records).
Proof.
  induction records as [|[k r] records IH]; [reflexivity|].
  cbn [map result_map fst snd py_kwargs mbind result_mbind result_bind mret
         result_ret].
  now rewrite IH.
Qed.

(** X10: after a successful [load] of a payload whose [api_keys] maps
    providers to objects, [get_api_keys()] returns one APIKey per provider,
    built from its record, in the order of the payload. *)
Theorem get_api_keys_all w payload (records : list (string * dict)) :
  next_payload w = Some (PDict payload) ->
  assoc "api_keys" payload
  = Some (PDict (map (fun kr => (fst kr, PDict (snd kr))) records)) ->
  run load w = Ok tt ->
  run get_api_keys (exec load w)
  = Ok (PList (map (fun kr => APIKey (snd kr)) records)).
Proof.
  intros Hp Hk Hload.
  unfold run, get_api_keys.
  rewrite (bind_step _ _ _ _ _
             (loaded_attr _ payload "api_keys"
                (PDict (map (fun kr => (fst kr, PDict (snd kr))) records))
                Hp Hload
                (fun t L => eq_trans (ld_api_keys _ _ L)
                              (f_equal (fun o => Some (default (PDict []) o)) Hk)))).
  cbn [py_items]. rewrite lift_step, api_keys_map. reflexivity.
Qed.

Lemma get_api_keys_all_witness :
  run get_api_keys (exec load (start [ok_reply payload_full]))
  = Ok (PList [APIKey [("key", PStr "k1")]]).
Proof.
  exact (get_api_keys_all (start [ok_reply payload_full]) payload_full
           [("openrouter", [("key", PStr "k1")])] eq_refl eq_refl eq_refl).
Defined.

(** X11: after a successful [load] of a payload whose [settings] is an
    object, [get_setting(s)] returns the stored value of [s], and None for
    a name that is not there; with [settings] null it raises
    AttributeError. *)
Theorem get_setting_by_name w payload setting :
  next_payload w = Some (PDict payload) ->
  run load w = Ok tt ->
  (forall settings, assoc "settings" payload = Some (PDict settings) ->
   run (get_setting setting) (exec load w)
   = Ok (default PNone (assoc setting settings)))
  /\ (assoc "settings" payload = Some PNone ->
      run (get_setting setting) (exec load w) = Raise (AttributeError "get")).
Proof.
  intros Hp Hload. unfold run, get_setting. split.
  - intros settings E.
    rewrite (bind_step _ _ _ _ _
               (loaded_attr _ payload "settings" (PDict settings) Hp Hload
                  (fun t L => eq_trans (ld_settings _ _ L)
                                (f_equal (fun o => Some (default (PDict []) o)) E)))).
    reflexivity.
  - intros E.
    rewrite (bind_step _ _ _ _ _
               (loaded_attr _ payload "settings" PNone Hp Hload
                  (fun t L => eq_trans (ld_settings _ _ L)
                                (f_equal (fun o => Some (default (PDict []) o)) E)))).
    reflexivity.
Qed.

Lemma get_setting_by_name_witness :
  run (get_setting "model") (exec load (start [ok_reply payload_full]))
  = Ok (PStr "m1")
  /\ run (get_setting "theme") (exec load (start [ok_reply payload_full]))
     = Ok PNone.
Proof.
  split.
  - exact (proj1 (get_setting_by_name (start [ok_reply payload_full])
                    payload_full "model" eq_refl eq_refl)
             [("model", PStr "m1")] eq_refl).
  - exact (proj1 (get_setting_by_name (start [ok_reply payload_full])
                    payload_full "theme" eq_refl eq_refl)
             [("model", PStr "m1")] eq_refl).
Defined.

(** X12: after a successful [load], [get_code_apply_change()] combines the
    target path and the patch text of the payload's [code_apply_change]
    with the repository path of the session; it raises KeyError when one
    of the two members is missing, and TypeError when the payload had no
    [code_apply_change] or a null one. *)
Theorem get_code_apply_change_value w payload :
  next_payload w = Some (PDict payload) ->
  run load w = Ok tt ->
  exists repo_path,
    assoc "repo_path" payload = Some repo_path
    /\ (forall change target patch,
          assoc "code_apply_change" payload = Some (PDict change) ->
          assoc "target_file_path" change = Some target ->
          assoc "patch_text" change = Some patch ->
          run get_code_apply_change (exec load w)
          = Ok (CodeApplyChange target repo_path patch))
    /\ (forall change,
          assoc "code_apply_change" payload = Some (PDict change) ->
          assoc "target_file_path" change = None ->
          run get_code_apply_change (exec load w)
          = Raise (KeyError "target_file_path"))
    /\ (forall change target,
          assoc "code_apply_change" payload = Some (PDict change) ->
          assoc "target_file_path" change = Some target ->
          assoc "patch_text" change = None ->
          run get_code_apply_change (exec load w)
          = Raise (KeyError "patch_text"))
    /\ (assoc "code_apply_change" payload = None
        \/ assoc "code_apply_change" payload = Some PNone ->
        run get_code_apply_change (exec load w) = Raise TypeError).
Proof.
  intros Hp Hload.
  pose proof (load_loaded _ _ Hp Hload) as L.
  destruct (ld_repo_path _ _ L) as (rp & Hrp & Hrpa).
  exists rp. split; [exact Hrp|].
  pose proof (ld_code_apply_change _ _ L) as Hc.
  unfold run, get_code_apply_change.
  split_and!.
  - intros change target patch E Ht Hpt. rewrite E in Hc. simpl in Hc.
    rewrite (bind_step _ _ _ _ _ (getattr_run _ _ _ Hc)).
    cbn [py_getitem]. rewrite Ht, lift_step.
    rewrite (bind_step _ _ _ _ _ (getattr_run _ _ _ Hrpa)).
    now rewrite Hpt.
  - intros change E Ht. rewrite E in Hc. simpl in Hc.
    rewrite (bind_step _ _ _ _ _ (getattr_run _ _ _ Hc)).
    cbn [py_getitem]. now rewrite Ht.
  - intros change target E Ht Hpt. rewrite E in Hc. simpl in Hc.
    rewrite (bind_step _ _ _ _ _ (getattr_run _ _ _ Hc)).
    cbn [py_getitem]. rewrite Ht, lift_step.
    rewrite (bind_step _ _ _ _ _ (getattr_run _ _ _ Hrpa)).
    now rewrite Hpt.
  - intros [E | E]; rewrite E in Hc; simpl in Hc;
      now rewrite (bind_step _ _ _ _ _ (getattr_run _ _ _ Hc)).
Qed.

Lemma get_code_apply_change_value_witness :
  run get_code_apply_change (exec load (start [ok_reply payload_full]))
  = Ok (CodeApplyChange (PStr "a.py") (PStr "/proj") (PStr "+y"))
  /\ run get_code_apply_change (exec load (start [ok_reply payload_min]))
     = Raise TypeError.
Proof.
  destruct (get_code_apply_change_value (start [ok_reply payload_full])
              payload_full eq_refl eq_refl) as (rp & Hrp & H1 & _).
  destruct (get_code_apply_change_value (start [ok_reply payload_min])
              payload_min eq_refl eq_refl) as (rp' & _ & _ & _ & _ & H2).
  injection Hrp as <-.
  split; [exact (H1 _ _ _ eq_refl eq_refl eq_refl) | exact (H2 (or_introl eq_refl))].
Defined.

Lemma assoc_app {A} k (d1 d2 : list (string * A)) :
  assoc k (d1 ++ d2)
  = match assoc k d1 with
    | Some v => Some v
    | None => assoc k d2
    end.
Proof.
  induction d1 as [|[k' v'] d1 IH]; [reflexivity|].
  cbn [app assoc]. now destruct (String.eqb k k').
Qed.

Lemma dict_set_fresh {A} k (v : A) d :
  assoc k d = None -> dict_set k v d = d ++ [(k, v)].
Proof.
  induction d as [|[k' v'] d IH]; [reflexivity|].
  cbn [assoc dict_set app]. destruct (String.eqb k k'); [discriminate|].
  intros H. now rewrite IH.
Qed.

Lemma load_context_files_groups repo_path (groups : list (string * list pyval)) :
  forall acc,
    NoDup (map fst groups) ->
    (forall g, In g (map fst groups) -> assoc g acc = None) ->
    load_context_files repo_path
      (map (fun gp => (fst gp, PList (snd gp))) groups) acc
    = Ok (acc ++ map (fun gp =>
                        (fst gp,
                         PList (map (fun p => File2 p repo_path) (snd gp))))
                   groups).
Proof.
  induction groups as [|[g ps] groups IH]; intros acc Hnd Hfresh.
  - cbn. now rewrite app_nil_r.
  - cbn [map fst snd load_context_files py_iter] in *.
    apply NoDup_cons in Hnd as [Hg Hnd].
    rewrite dict_set_fresh by (apply Hfresh; now left).
    rewrite IH; [now rewrite <- app_assoc | exact Hnd |].
    intros g' Hin. rewrite assoc_app, (Hfresh g') by now right.
    cbn [assoc]. destruct (String.eqb g' g) eqn:E; [|reflexivity].
    apply String.eqb_eq in E as ->. destruct Hg. now apply list_elem_of_In.
Qed.

(** X13: after a successful [load] of a payload whose [context_files] maps
    group names to lists of paths, [get_context_files()] maps every group,
    in the order of the payload, to the list of File records of its paths,
    each built from the path and the repository path alone. *)
Theorem get_context_files_groups w payload (groups : list (string * list pyval)) :
  next_payload w = Some (PDict payload) ->
  assoc "context_files" payload
  = Some (PDict (map (fun gp => (fst gp, PList (snd gp))) groups)) ->
  NoDup (map fst groups) ->
  run load w = Ok tt ->
  exists repo_path,
    assoc "repo_path" payload = Some repo_path
    /\ run get_context_files (exec load w)
       = Ok (PDict (map (fun gp =>
                           (fst gp,
                            PList (map (fun p => File2 p repo_path) (snd gp))))
                      groups)).
Proof.
  intros Hp Hc Hnd Hload.
  pose proof (load_loaded _ _ Hp Hload) as L.
  destruct (ld_context_files _ _ L) as (rp & items & ctx & Hrp & Hit & Hctx & Ha).
  rewrite Hc in Hit. injection Hit as <-.
  rewrite (load_context_files_groups rp groups [] Hnd) in Hctx by reflexivity.
  injection Hctx as <-.
  exists rp. split; [exact Hrp|]. now apply getattr_value.
Qed.

Lemma get_context_files_groups_witness :
  exists repo_path,
    assoc "repo_path" payload_full = Some repo_path
    /\ run get_context_files (exec load (start [ok_reply payload_full]))
       = Ok (PDict [("docs", PList [File2 (PStr "README.md") repo_path])]).
Proof.
  refine (get_context_files_groups (start [ok_reply payload_full]) payload_full
            [("docs", [PStr "README.md"])] eq_refl eq_refl _ eq_refl).
  apply NoDup_singleton.
Defined.

Lemma messages_of entries messages :
  result_map (fun m => kw ← py_kwargs m; mret (Message kw)) entries = Ok messages ->
  exists ms, entries = map PDict ms /\ messages = map Message ms.
Proof.
  revert messages. induction entries as [|m entries IH]; intros messages.
  - intros [= <-]. now exists [].
  - cbn [result_map]. destruct m; try discriminate.
    cbn [py_kwargs mbind result_mbind result_bind mret result_ret].
    destruct (result_map _ entries) as [ys|]; [|discriminate].
    intros [= <-]. destruct (IH ys eq_refl) as (ms & -> & ->).
    now exists (d :: ms).
Qed.

(** X14: a [load] that succeeds on a payload whose [chat_history] is a
    list has found an object in every entry, and [get_chat_history()]
    returns one Message per entry, built from its members, in order. *)
Theorem get_chat_history_messages w payload entries :
  next_payload w = Some (PDict payload) ->
  assoc "chat_history" payload = Some (PList entries) ->
  run load w = Ok tt ->
  exists ms,
    entries = map PDict ms
    /\ run get_chat_history (exec load w) = Ok (PList (map Message ms)).
Proof.
  intros Hp Hc Hload.
  pose proof (load_loaded _ _ Hp Hload) as L.
  destruct (ld_chat_history _ _ L) as (es & msgs & Hit & Hmap & Ha).
  rewrite Hc in Hit. injection Hit as <-.
  destruct (messages_of _ _ Hmap) as (ms & -> & ->).
  exists ms. split; [reflexivity|]. now apply getattr_value.
Qed.

Lemma get_chat_history_messages_witness :
  exists ms,
    [PDict [("role", PStr "user"); ("content", PStr "hi")]] = map PDict ms
    /\ run get_chat_history (exec load (start [ok_reply payload_full]))
       = Ok (PList (map Message ms)).
Proof.
  exact (get_chat_history_messages (start [ok_reply payload_full]) payload_full
           [PDict [("role", PStr "user"); ("content", PStr "hi")]]
           eq_refl eq_refl eq_refl).
Defined.

(** X15: a [load] that succeeds has found a [cursor] in the payload that is
    null or an object; [get_cursor()] returns None for null and the Cursor
    built from the object's members otherwise. *)
Theorem get_cursor_value w payload :
  next_payload w = Some (PDict payload) ->
  run load w = Ok tt ->
  exists cursor,
    assoc "cursor" payload = Some cursor
    /\ (cursor = PNone /\ run get_cursor (exec load w) = Ok PNone
        \/ exists kw, cursor = PDict kw
                      /\ run get_cursor (exec load w) = Ok (Cursor kw)).
Proof.
  intros Hp Hload.
  pose proof (load_loaded _ _ Hp Hload) as L.
  destruct (ld_cursor _ _ L) as (c & Hc & [[-> Ha] | (kw & -> & Ha)]);
    eexists; (split; [exact Hc|]).
  - left. split; [reflexivity | now apply getattr_value].
  - right. exists kw. split; [reflexivity | now apply getattr_value].
Qed.

Lemma get_cursor_value_witness :
  run get_cursor (exec load (start [ok_reply payload_full]))
  = Ok (Cursor [("row", PInt 3); ("column", PInt 0)]).
Proof.
  destruct (get_cursor_value (start [ok_reply payload_full]) payload_full
              eq_refl eq_refl) as (c & Hc & [[-> H] | (kw & -> & H)]).
  - discriminate Hc.
  - injection Hc as <-. exact H.
Defined.

(** X16: [opened_files] has no default: for a payload that lacks it, or
    has null for it, [load] raises. *)
Theorem load_requires_opened_files w payload :
  next_payload w = Some (PDict payload) ->
  assoc "opened_files" payload = None
  \/ assoc "opened_files" payload = Some PNone ->
  exists e, run load w = Raise e.
Proof.
  intros Hp Hof.
  destruct (result_cases (run load w)) as [Hload | He]; [|exact He].
  pose proof (load_loaded _ _ Hp Hload) as L.
  destruct (ld_repo_files _ _ L) as (? & s & ? & ? & ? & _ & Hs & _).
  destruct Hof as [E | E]; rewrite E in Hs; discriminate Hs.
Qed.

Lemma load_requires_opened_files_witness :
  exists e,
    run load (start [ok_reply (without "opened_files" payload_min)]) = Raise e.
Proof.
  exact (load_requires_opened_files
           (start [ok_reply (without "opened_files" payload_min)])
           (without "opened_files" payload_min) eq_refl (or_introl eq_refl)).
Defined.

(** ** Loading again *)

Lemma respects_any_setattr name v : respects (fun _ _ => True) (setattr name v).
Proof. intros w1 w2 _. now split. Qed.

(** The outcome of filling the context depends on the payload alone. *)
Lemma load_context_result kwargs w w' :
  fst (load_context kwargs w) = fst (load_context kwargs w').
Proof.
  assert (respects (fun _ _ => True) (load_context kwargs)) as H.
  { unfold load_context.
    repeat first
      [ apply respects_bind; [|intros ?]
      | apply respects_lift
      | apply respects_any_setattr
      | match goal with
        | |- respects _ (match ?x with _ => _ end) => destruct x
        end ]. }
  now apply H.
Qed.

Ltac same_results :=
  repeat match goal with
    | H1 : ?a = Ok ?x, H2 : ?a = Ok ?y |- _ =>
        rewrite H1 in H2; injection H2 as <-
    end.

Lemma loaded_unique payload t1 t2 k :
  loaded payload t1 -> loaded payload t2 ->
  In k context_attrs -> k <> "uuid" -> t1 !! k = t2 !! k.
Proof.
  intros L1 L2 Hk Hne. unfold context_attrs in Hk. cbn [In] in Hk.
  repeat (destruct Hk as [<- | Hk]); try contradiction.
  - destruct (ld_request_id _ _ L1) as (? & ? & ->),
             (ld_request_id _ _ L2) as (? & ? & ->).
    simplify_eq; same_results; congruence.
  - destruct (ld_repo_path _ _ L1) as (? & ? & ->),
             (ld_repo_path _ _ L2) as (? & ? & ->).
    simplify_eq; same_results; congruence.
  - now rewrite (ld_selection _ _ L1), (ld_selection _ _ L2).
  - now rewrite (ld_clip_board _ _ L1), (ld_clip_board _ _ L2).
  - now rewrite (ld_prompt _ _ L1), (ld_prompt _ _ L2).
  - destruct (ld_chat_history _ _ L1) as (? & ? & ? & ? & ->),
             (ld_chat_history _ _ L2) as (? & ? & ? & ? & ->).
    simplify_eq; same_results; congruence.
  - now rewrite (ld_current_terminal _ _ L1), (ld_current_terminal _ _ L2).
  - now rewrite (ld_terminals _ _ L1), (ld_terminals _ _ L2).
  - now rewrite (ld_api_keys _ _ L1), (ld_api_keys _ _ L2).
  - now rewrite (ld_settings _ _ L1), (ld_settings _ _ L2).
  - now rewrite (ld_ui_action _ _ L1), (ld_ui_action _ _ L2).
  - now rewrite (ld_code_apply_change _ _ L1), (ld_code_apply_change _ _ L2).
  - destruct (ld_repo_files _ _ L1) as (? & ? & ? & ? & ? & ? & ? & ? & ? & ? & ->),
             (ld_repo_files _ _ L2) as (? & ? & ? & ? & ? & ? & ? & ? & ? & ? & ->).
    simplify_eq; same_results; congruence.
  - destruct (ld_current_file _ _ L1) as (? & ? & ? & ? & ->),
             (ld_current_file _ _ L2) as (? & ? & ? & ? & ->).
    simplify_eq; same_results; congruence.
  - destruct (ld_context_files _ _ L1) as (? & ? & ? & ? & ? & ? & ->),
             (ld_context_files _ _ L2) as (? & ? & ? & ? & ? & ? & ->).
    simplify_eq; same_results; congruence.
  - destruct (ld_cursor _ _ L1) as (? & ? & [[? ->] | (? & ? & ->)]),
             (ld_cursor _ _ L2) as (? & ? & [[? ->] | (? & ? & ->)]);
      simplify_eq; same_results; congruence.
Qed.

(** X17: [load] does not look at the context it finds: two threads with
    the same environment and the same pending replies get the same outcome
    from [load], whatever they had loaded before (and without [cleanup]);
    when it succeeds, every attribute of the context has the same value on
    both, so a second [load] overwrites all of the first. *)
Theorem load_overwrites_previous_context w1 w2 :
  environ w1 = environ w2 ->
  inbox w1 = inbox w2 ->
  run load w1 = run load w2
  /\ (run load w1 = Ok tt ->
      forall k, In k context_attrs ->
                tls (exec load w1) !! k = tls (exec load w2) !! k).
Proof.
  intros He Hi.
  assert (run load w1 = run load w2) as Hrun.
  { destruct (load_environment_cases w1) as [H1n H1],
             (load_environment_cases w2) as [H2n H2].
    rewrite He in H1n, H1.
    destruct (environ w2 !! "EXTENSION_UUID") as [uuid|] eqn:Eu;
      [| rewrite (proj1 (H1n eq_refl)), (proj1 (H2n eq_refl)); reflexivity].
    destruct (H1 uuid eq_refl) as [H1h H1'], (H2 uuid eq_refl) as [H2h H2'].
    destruct (environ w2 !! "HOST") as [host|] eqn:Eh;
      [| rewrite (proj1 (H1h eq_refl)), (proj1 (H2h eq_refl)); reflexivity].
    destruct (H1' host eq_refl) as [H1p H1i], (H2' host eq_refl) as [H2p H2i].
    destruct (environ w2 !! "PORT") as [port_text|] eqn:Ep;
      [| rewrite (proj1 (H1p eq_refl)), (proj1 (H2p eq_refl)); reflexivity].
    destruct (py_int port_text) as [port|e] eqn:Eint;
      [| rewrite (proj1 (H1i _ e eq_refl Eint)), (proj1 (H2i _ e eq_refl Eint));
         reflexivity].
    assert (environ_ok w2 uuid host port) as Hok2
        by (unfold environ_ok; eauto).
    assert (environ_ok w1 uuid host port) as Hok1
        by (unfold environ_ok; rewrite He; eauto).
    unfold run. rewrite (load_run _ _ _ _ Hok1), (load_run _ _ _ _ Hok2), Hi.
    destruct (fetched (head (inbox w2))); [|reflexivity].
    apply load_context_result. }
  split; [exact Hrun|].
  intros Hok1 k Hk.
  assert (run load w2 = Ok tt) as Hok2 by congruence.
  apply load_run_Ok, load_Ok in Hok1
      as (u1 & ? & ? & ? & p1 & Hu1 & _ & _ & _ & Hp1 & L1 & Hid1 & _).
  apply load_run_Ok, load_Ok in Hok2
      as (u2 & ? & ? & ? & p2 & Hu2 & _ & _ & _ & Hp2 & L2 & Hid2 & _).
  assert (p1 = p2) as <-.
  { unfold next_payload in Hp1, Hp2. rewrite Hi in Hp1. congruence. }
  assert (u1 = u2) as <- by congruence.
  destruct (String.eqb k "uuid") eqn:E.
  - apply String.eqb_eq in E as ->. congruence.
  - apply String.eqb_neq in E. now apply (loaded_unique p1).
Qed.

Lemma load_overwrites_previous_context_witness :
  run get_selection
    (exec load (exec load (start [ok_reply payload_ab; ok_reply payload_min])))
  = run get_selection (exec load (start [ok_reply payload_min])).
Proof.
  pose proof (load_overwrites_previous_context
                (exec load (start [ok_reply payload_ab; ok_reply payload_min]))
                (start [ok_reply payload_min]) eq_refl eq_refl) as [_ H].
  unfold run, get_selection, getattr.
  rewrite (H eq_refl "selection"); [reflexivity|].
  unfold context_attrs. cbn [In]. tauto.
Defined.

(** ** When [load] succeeds *)

Lemma messages_map (ms : list dict) :
  result_map (fun m => kw ← py_kwargs m; mret (Message kw)) (map PDict ms)
  = Ok (map Message ms).
Proof.
  induction ms as [|m ms IH]; [reflexivity|].
  cbn [map result_map py_kwargs mbind result_mbind result_bind mret result_ret].
  now rewrite IH.
Qed.

Lemma repo_files_map repo_path opened paths :
  forallb hashable paths = true ->
  result_map (fun p => is_open ← py_in_set p opened;
                       mret (File p repo_path PNone is_open)) paths
  = Ok (map (fun p => File p repo_path PNone (existsb (py_eq p) opened)) paths).
Proof.
  induction paths as [|p paths IH]; [reflexivity|].
  cbn [forallb]. intros [Hp Hps]%andb_true_iff.
  cbn [map result_map]. unfold py_in_set at 1. rewrite Hp.
  cbn [mbind result_mbind result_bind mret result_ret].
  now rewrite (IH Hps).
Qed.

Lemma load_context_files_total repo_path (groups : list (string * list pyval)) :
  forall acc,
    exists ctx,
      load_context_files repo_path
        (map (fun gp => (fst gp, PList (snd gp))) groups) acc = Ok ctx.
Proof.
  induction groups as [|[g ps] groups IH]; intros acc.
  - now exists acc.
  - cbn [map fst snd load_context_files py_iter]. apply IH.
Qed.

(** X18: [load] returns normally on every payload of the shape the host
    documents: with a complete environment and a reply without error
    status whose [data] is an object, it is enough that [request_id],
    [repo_path] and [current_file] are present, that [repo] and
    [opened_files] are lists of hashable values (strings, say), that
    [chat_history], when given, is a list of objects, [context_files], when
    given, an object of lists, and [cursor] null or an object. *)
Theorem load_succeeds w uuid host port status body payload
        rid repo_path ms opened repo current_file
        (groups : list (string * list pyval)) :
  environ_ok w uuid host port ->
  head (inbox w) = Some (Reply status (Some body)) ->
  is_error_status status = false ->
  py_getitem body "data" = Ok (PDict payload) ->
  assoc "request_id" payload = Some rid ->
  assoc "repo_path" payload = Some repo_path ->
  default (PList []) (assoc "chat_history" payload) = PList (map PDict ms) ->
  assoc "opened_files" payload = Some (PList opened) ->
  forallb hashable opened = true ->
  assoc "repo" payload = Some (PList repo) ->
  forallb hashable repo = true ->
  assoc "current_file" payload = Some current_file ->
  default (PDict []) (assoc "context_files" payload)
  = PDict (map (fun gp => (fst gp, PList (snd gp))) groups) ->
  (assoc "cursor" payload = Some PNone
   \/ exists kw, assoc "cursor" payload = Some (PDict kw)) ->
  run load w = Ok tt.
Proof.
  intros Henv Hin Hst Hdata Hrid Hrp Hch Hof Hoh Hrepo Hrh Hcf Hctx Hcur.
  unfold run. rewrite (load_run _ _ _ _ Henv).
  rewrite (fetched_payload _ _ _ _ Hin Hst Hdata).
  set (w3 := with_wire _ _ _). clearbody w3.
  destruct (load_context_files_total repo_path groups []) as [ctx Hgroups].
  unfold load_context, py_set. cbn [py_getitem py_get].
  rewrite Hrid, Hrp, Hch, Hof, Hrepo, Hcf, Hctx.
  change (default PNone (Some (PList opened))) with (PList opened).
  repeat first
    [ rewrite lift_step
    | rewrite setattr_step
    | progress cbn [py_iter]
    | rewrite messages_map
    | rewrite Hoh
    | rewrite (repo_files_map _ _ _ Hrh) ].
  assert (forall A (k : M A) w0 (P : result A -> Prop),
             (forall w1, P (fst (k w1))) ->
             P (fst ((match current_file with
                      | PNone => setattr "current_file" PNone
                      | _ =>
                          lift (Ok (default PNone
                                      (assoc "current_file_content" payload)))
                          ≫= fun current_file_content =>
                          lift (Ok current_file)
                          ≫= fun current_file' =>
                          setattr "current_file"
                            (File current_file' repo_path current_file_content
                               true)
                      end ≫= fun _ => k) w0))) as Hstep.
  { intros A k w0 P Hk. destruct current_file; apply Hk. }
  apply Hstep. intros w1.
  rewrite lift_step. cbn [py_items]. rewrite lift_step, Hgroups, lift_step,
    setattr_step.
  destruct Hcur as [Hc | [kw Hc]]; rewrite Hc; rewrite lift_step; reflexivity.
Qed.

Lemma load_succeeds_witness :
  run load (start [ok_reply payload_full]) = Ok tt.
Proof.
  refine (load_succeeds (start [ok_reply payload_full])
            "u-1" "localhost" 8080 200 (PDict [("data", PDict payload_full)])
            payload_full (PStr "r9") (PStr "/proj")
            [[("role", PStr "user"); ("content", PStr "hi")]]
            [PStr "a.py"] [PStr "a.py"] (PStr "a.py")
            [("docs", [PStr "README.md"])]
            _ eq_refl eq_refl eq_refl eq_refl eq_refl eq_refl eq_refl eq_refl
            eq_refl eq_refl eq_refl eq_refl _).
  - split; [reflexivity|]. split; [reflexivity|].
    exists "8080". split; reflexivity.
  - right. exists [("row", PInt 3); ("column", PInt 0)]. reflexivity.
Defined.

(** ** Required fields *)

Lemma assoc_extend {A} k' k (v : A) d :
  k' <> k -> assoc k' (d ++ [(k, v)]) = assoc k' d.
Proof.
  intros Hne. rewrite assoc_app. destruct (assoc k' d); [reflexivity|].
  cbn [assoc]. destruct (String.eqb k' k) eqn:E; [|reflexivity].
  now apply String.eqb_eq in E.
Qed.

(** A payload that [load] accepts once the key [k] is added raises, without
    it, exactly where [k] is read. *)
Lemma load_context_missing payload k v w w1 :
  In k required_fields ->
  assoc k payload = None ->
  fst (load_context (PDict (payload ++ [(k, v)])) w1) = Ok tt ->
  fst (load_context (PDict payload) w) = Raise (KeyError k).
Proof.
  intros Hk Habs Hok.
  destruct (load_context (PDict (payload ++ [(k, v)])) w1) as [r w1'] eqn:E.
  cbn [fst] in Hok. subst r.
  apply load_context_Ok in E as (p & [= <-] & L & _).
  destruct (ld_request_id _ _ L) as (rid & Hrid & _).
  destruct (ld_repo_path _ _ L) as (rp & Hrp & _).
  destruct (ld_chat_history _ _ L) as (entries & messages & Hch1 & Hch2 & _).
  destruct (ld_repo_files _ _ L)
    as (rp1 & opened & repo & paths & files & Hrp1 & Hof & Hrepo & Hit & Hmap & _).
  destruct (ld_current_file _ _ L) as (rp2 & cf & Hrp2 & Hcf & _).
  destruct (ld_context_files _ _ L) as (rp3 & items & ctx & Hrp3 & Hitems & Hctx & _).
  clear L.
  assert (rp1 = rp) as -> by congruence.
  assert (rp2 = rp) as -> by congruence.
  assert (rp3 = rp) as -> by congruence.
  clear Hrp1 Hrp2 Hrp3.
  assert (forall A (m : M A) w0 (P : result A -> Prop),
             (forall w2, P (fst (m w2))) ->
             P (fst ((match cf with
                      | PNone => setattr "current_file" PNone
                      | _ =>
                          lift (Ok (default PNone
                                      (assoc "current_file_content" payload)))
                          ≫= fun current_file_content =>
                          lift (Ok cf)
                          ≫= fun current_file' =>
                          setattr "current_file"
                            (File current_file' rp current_file_content true)
                      end ≫= fun _ => m) w0))) as Hstep.
  { intros A m w0 P Hm. destruct cf; apply Hm. }
  unfold required_fields in Hk. cbn [In] in Hk.
  destruct Hk as [<- | [<- | [<- | [<- | [<- | []]]]]];
    try rewrite assoc_extend in Hrid by discriminate;
    try rewrite assoc_extend in Hrp by discriminate;
    try rewrite assoc_extend in Hch1 by discriminate;
    try rewrite assoc_extend in Hof by discriminate;
    try rewrite assoc_extend in Hrepo by discriminate;
    try rewrite assoc_extend in Hcf by discriminate;
    try rewrite assoc_extend in Hitems by discriminate;
    unfold load_context; cbn [py_getitem py_get];
    repeat first
      [ rewrite lift_step
      | rewrite setattr_step
      | rewrite Habs
      | rewrite Hrid | rewrite Hrp | rewrite Hch1 | rewrite Hch2
      | rewrite Hof | rewrite Hrepo | rewrite Hit | rewrite Hmap
      | rewrite Hcf | rewrite Hitems | rewrite Hctx ];
    try reflexivity.
  apply Hstep. intros w2.
  repeat first
    [ rewrite lift_step | rewrite setattr_step | rewrite Hitems | rewrite Hctx
    | rewrite Habs ].
  reflexivity.
Qed.

(** C1 (as amended): for a payload that [load] accepts, each of the fields
    that [load] reads with a default -- selection, clip_board, prompt,
    ui_action, chat_history, current_terminal, terminals, api_keys, settings,
    context_files, current_file_content -- may be absent, and its accessor
    then returns the default (None, an empty collection, a Terminal wrapping
    None, a current file without content).  The fields request_id, repo_path,
    repo, current_file and cursor are required: when one of them is absent,
    [load] raises instead of returning; the exception is the KeyError of
    that field whenever the fetch has delivered the payload and [load]
    accepts the payload once the field is added to it. *)
Theorem absent_fields_default_or_required w payload :
  next_payload w = Some (PDict payload) ->
  (run load w = Ok tt ->
   let w' := exec load w in
   (assoc "selection" payload = None -> run get_selection w' = Ok PNone)
   /\ (assoc "clip_board" payload = None -> run get_clip_board w' = Ok PNone)
   /\ (assoc "prompt" payload = None -> run get_prompt w' = Ok PNone)
   /\ (assoc "ui_action" payload = None -> run get_ui_action w' = Ok PNone)
   /\ (assoc "chat_history" payload = None ->
       run get_chat_history w' = Ok (PList []))
   /\ (assoc "current_terminal" payload = None ->
       run get_current_terminal w' = Ok (Terminal PNone true))
   /\ (assoc "terminals" payload = None -> run get_terminals w' = Ok (PList []))
   /\ (assoc "api_keys" payload = None ->
       run get_api_keys w' = Ok (PList [])
       /\ forall provider, run (get_api_key provider) w' = Ok PNone)
   /\ (assoc "settings" payload = None ->
       forall setting, run (get_setting setting) w' = Ok PNone)
   /\ (assoc "context_files" payload = None ->
       run get_context_files w' = Ok (PDict []))
   /\ (assoc "current_file_content" payload = None ->
       forall path, assoc "current_file" payload = Some path -> path <> PNone ->
       exists repo_path,
         run get_current_file w' = Ok (File path repo_path PNone true)))
  /\ (forall k, In k required_fields -> assoc k payload = None ->
      (exists e, run load w = Raise e)
      /\ (forall uuid host port v w2,
            environ_ok w uuid host port ->
            fetched (head (inbox w)) = Ok (PDict payload) ->
            fetched (head (inbox w2)) = Ok (PDict (payload ++ [(k, v)])) ->
            run load w2 = Ok tt ->
            run load w = Raise (KeyError k))).
Proof.
  intros Hp. destruct (absent_fields_cases w payload Hp) as [Hdefault Hrequired].
  split; [exact Hdefault|].
  intros k Hk Habs. split; [exact (Hrequired k Hk Habs)|].
  intros uuid host port v w2 Henv Hf Hf2 Hok2.
  pose proof (load_run_Ok _ Hok2) as H2.
  apply load_Ok in H2
      as (u2 & h2 & pt2 & p2 & ? & Hu2 & Hh2 & Hpt2 & Hint2 & _).
  assert (environ_ok w2 u2 h2 p2) as Henv2 by (unfold environ_ok; eauto).
  unfold run in Hok2 |- *.
  rewrite (load_run _ _ _ _ Henv2), Hf2 in Hok2.
  rewrite (load_run _ _ _ _ Henv), Hf.
  exact (load_context_missing payload k v _ _ Hk Habs Hok2).
Qed.

Lemma absent_fields_default_or_required_witness :
  run get_selection (exec load (start [ok_reply payload_min])) = Ok PNone
  /\ run get_terminals (exec load (start [ok_reply payload_min])) = Ok (PList [])
  /\ run load (start [ok_reply (without "cursor" payload_min)])
     = Raise (KeyError "cursor").
Proof.
  pose proof (absent_fields_default_or_required
                (start [ok_reply payload_min]) payload_min eq_refl)
    as [Hdefault _].
  pose proof (absent_fields_default_or_required
                (start [ok_reply (without "cursor" payload_min)])
                (without "cursor" payload_min) eq_refl)
    as [_ Hrequired].
  destruct (Hdefault eq_refl) as (Hsel & _ & _ & _ & _ & _ & Hts & _).
  split; [exact (Hsel eq_refl)|].
  split; [exact (Hts eq_refl)|].
  refine (proj2 (Hrequired "cursor" _ eq_refl) "u-1" "localhost" 8080 PNone
            (start [ok_reply (without "cursor" payload_min ++ [("cursor", PNone)])])
            _ eq_refl eq_refl eq_refl).
  - unfold required_fields. cbn [In]. tauto.
  - split; [reflexivity|]. split; [reflexivity|].
    exists "8080". split; reflexivity.
Defined.
